(** * toyota_agent: a shallow embedding of the tools, the agent, the chat UI
      and the data-setup script, with the properties of the specification.

    Python values are embedded as the inductive [PyVal]; code that can raise
    returns a [Result]; code that talks to DuckDB threads a [World] holding
    the trace of connection events.  The third-party libraries (vector
    index, chat model, DuckDB, json, pandas, the agent framework) are
    records of functions supplied by the caller. *)

From Stdlib Require Import ZArith.
From Stdlib Require SpecFloat.
From stdpp Require Import gmap strings list pretty.


(** ** Python values, exceptions and results *)

(** A Python [float] is an IEEE binary64 number: a signed zero, a signed
    infinity, [nan], or a sign, a mantissa and an exponent.  [S754_nan] is
    the [nan] pandas puts where a value is missing. *)
#[warnings="-register-all"]
Inductive PyVal : Type :=
  | PNone
  | PStr (s : string)
  | PInt (z : Z)
  | PFloat (x : SpecFloat.spec_float)
  | PList (l : list PyVal)
  | PDict (d : list (string * PyVal)).

(** [type(v).__name__] *)
Definition py_type_name (v : PyVal) : string :=
  match v with
  | PNone => "NoneType"
  | PStr _ => "str"
  | PInt _ => "int"
  | PFloat _ => "float"
  | PList _ => "list"
  | PDict _ => "dict"
  end.

(** Subclasses of [Exception] the modelled code can meet. *)
Inductive Exn : Type :=
  | KeyError (key : string)
  | TypeError (msg : string)
  | IndexError (msg : string)
  | AttributeError (msg : string)
  | RecursionError (msg : string)
  | ExternalError (cls msg : string).

Inductive Result (A : Type) : Type :=
  | Ok (a : A)
  | Raise (e : Exn).
Arguments Ok {A} a.
Arguments Raise {A} e.

Definition is_ok {A} (r : Result A) : bool :=
  match r with Ok _ => true | Raise _ => false end.

(** [str(e)] for an exception. *)
Definition exn_str (e : Exn) : string :=
  match e with
  | KeyError k => "'" +:+ k +:+ "'"
  | TypeError m | IndexError m | AttributeError m | RecursionError m => m
  | ExternalError _ m => m
  end.

Definition nl : string := String (Ascii.ascii_of_nat 10) EmptyString.

(** The double-quote character, as it stands in some messages of CPython. *)
Definition dq : string := String (Ascii.ascii_of_nat 34) EmptyString.

(** [sep.join(l)] *)
Definition join (sep : string) (l : list string) : string := String.concat sep l.

(** Sequencing of code that can raise but has no other effect. *)
Definition rbind {A B} (r : Result A) (k : A → Result B) : Result B :=
  match r with
  | Ok a => k a
  | Raise e => Raise e
  end.

Declare Scope res_scope.
Delimit Scope res_scope with res.
Notation "x <- m ;; k" := (rbind m (λ x, k))
  (at level 100, m at next level, right associativity) : res_scope.

Fixpoint rmap {A B} (f : A → Result B) (l : list A) : Result (list B) :=
  match l with
  | [] => Ok []
  | x :: rest => rbind (f x) (λ y, rbind (rmap f rest) (λ ys, Ok (y :: ys)))
  end.

(** ** Python dictionaries

    A [dict] keeps its keys in insertion order; assigning to a key that is
    present replaces the value in place. *)
Fixpoint dict_set {V} (k : string) (v : V) (d : list (string * V)) : list (string * V) :=
  match d with
  | [] => [(k, v)]
  | (k', v') :: rest =>
      if decide (k' = k) then (k', v) :: rest else (k', v') :: dict_set k v rest
  end.

Fixpoint dict_get {V} (k : string) (d : list (string * V)) : option V :=
  match d with
  | [] => None
  | (k', v') :: rest => if decide (k' = k) then Some v' else dict_get k rest
  end.

(** [dict(pairs)] *)
Definition dict_of_pairs {V} (pairs : list (string * V)) : list (string * V) :=
  foldl (λ d kv, dict_set kv.1 kv.2 d) [] pairs.

(** ** Effects: the trace of DuckDB connection events

    Each [duckdb.connect] that succeeds appends [Connect c] with a fresh
    connection number, each [con.execute] appends [Execute c sql] and each
    [con.close()] appends [Close c]. *)

Inductive Event : Type :=
  | Connect (c : nat)
  | Execute (c : nat) (sql : string)
  | Close (c : nat).

Definition World := list Event.

Definition M (A : Type) : Type := World → Result A * World.

Definition ret {A} (a : A) : M A := λ w, (Ok a, w).
Definition raise {A} (e : Exn) : M A := λ w, (Raise e, w).
Definition lift {A} (r : Result A) : M A := λ w, (r, w).

Definition bind {A B} (m : M A) (k : A → M B) : M B :=
  λ w, match m w with
       | (Ok a, w') => k a w'
       | (Raise e, w') => (Raise e, w')
       end.

Declare Scope py_scope.
Delimit Scope py_scope with py.
Notation "x <- m ;; k" := (bind m (λ x, k))
  (at level 100, m at next level, right associativity) : py_scope.
Notation "m ;;; k" := (bind m (λ _, k))
  (at level 100, right associativity) : py_scope.

(** [try: body  except Exception as e: handler e] *)
Definition try_except {A} (body : M A) (handler : Exn → M A) : M A :=
  λ w, match body w with
       | (Ok a, w') => (Ok a, w')
       | (Raise e, w') => handler e w'
       end.

(** [try: body  finally: final]: [final] runs on both exits, and an
    exception of [final] replaces the outcome of [body]. *)
Definition try_finally {A} (body : M A) (final : M unit) : M A :=
  λ w, match body w with
       | (r, w') =>
           match final w' with
           | (Ok _, w'') => (r, w'')
           | (Raise e, w'') => (Raise e, w'')
           end
       end.

(** A [for] loop that collects one value per element. *)
Fixpoint for_each {A B} (f : A → M B) (l : list A) : M (list B) :=
  match l with
  | [] => ret []
  | x :: rest => bind (f x) (λ y, bind (for_each f rest) (λ ys, ret (y :: ys)))
  end.

(** ** src/tools/tools.py *)
Module Tools.

(** *** retrieve *)

Record Document := { page_content : string; metadata : gmap string string }.

(** [doc.metadata.get("source", "Unknown")] *)
Definition source_of (doc : Document) : string :=
  default "Unknown" (metadata doc !! "source").

(** The deduplication loop, lines 38-43, with its two accumulators. *)
Fixpoint dedup_loop (docs unique_docs : list Document) (retrieved_docs : gset string)
  : list Document :=
  match docs with
  | [] => unique_docs
  | doc :: rest =>
      if decide (page_content doc ∈ retrieved_docs)
      then dedup_loop rest unique_docs retrieved_docs
      else dedup_loop rest (unique_docs ++ [doc]) ({[page_content doc]} ∪ retrieved_docs)
  end.

Definition unique_docs_of (docs : list Document) : list Document :=
  dedup_loop docs [] ∅.

(** The passages joined into the context, line 46. *)
Definition context_passages (docs : list Document) : list string :=
  page_content <$> unique_docs_of docs.

Definition context_of (docs : list Document) : string :=
  join (nl +:+ nl) (context_passages docs).

(** [list(set(sources))], lines 47 and 49.  The iteration order of a Python
    set is unspecified; [elements] of a [gset] is some enumeration without
    repetition, and nothing below depends on its order. *)
Definition sources_of (docs : list Document) : list string :=
  elements (list_to_set (source_of <$> unique_docs_of docs) : gset string).

Definition retrieve_result (docs : list Document) : PyVal :=
  PDict [("context", PStr (context_of docs));
         ("sources", PList (PStr <$> sources_of docs))].

(** The persisted vector index behind [as_retriever(search_kwargs=...)]:
    [vs_invoke question k doc_type] are the passages it returns, or the
    failure it raises. *)
Record VectorIndex := { vs_invoke : string → nat → string → Result (list Document) }.

Definition retrieve (ix : VectorIndex) (question doc_type : string) : Result PyVal :=
  match vs_invoke ix question 3 doc_type with
  | Ok docs => Ok (retrieve_result docs)
  | Raise e => Raise e
  end.

(** *** The DuckDB store and the chat model *)

(** A scalar of a tuple returned by [fetchall()], as [get_schema] reads
    them: the names and types of the catalog and the values of text columns
    (texts, integers and NULL). *)
Inductive Cell : Type :=
  | CNull
  | CText (s : string)
  | CInteger (z : Z).

(** [str(v)] and the value an f-string inserts. *)
Definition cell_str (v : Cell) : string :=
  match v with
  | CNull => "None"
  | CText s => s
  | CInteger z => pretty z
  end.

(** The Python value of a text or an integer of a result. *)
Definition cell_val (v : Cell) : PyVal :=
  match v with
  | CNull => PNone
  | CText s => PStr s
  | CInteger z => PInt z
  end.

(** The result of [con.execute(sql)], as the code reads it.  [tuples] is what
    [fetchall()] returns.  [columns] and [frame] are the column labels and
    the rows of the DataFrame that [df()] builds, with the labels and the
    values as DuckDB and pandas make them (a repeated column name renamed, a
    missing value as [nan], an aggregate as a float). *)
Record Table := {
  tuples : list (list Cell);
  columns : list string;
  frame : list (list PyVal)
}.

(** The store as seen through [duckdb]: whether [connect] succeeds and what
    [execute] yields, both possibly depending on what happened before. *)
Record Duck := {
  duck_connect : World → option Exn;
  duck_execute : World → string → Result Table
}.

(** [ChatOpenAI(...).invoke(prompt).content] *)
Record ChatModel := { llm_invoke : string → Result string }.

Section WithServices.
Variable db : Duck.
Variable llm : ChatModel.

Local Open Scope py_scope.

(** [duckdb.connect(DUCKDB_PATH, read_only=True)] *)
Definition connect : M nat :=
  λ w, match duck_connect db w with
       | None => (Ok (List.length w), w ++ [Connect (List.length w)])
       | Some e => (Raise e, w)
       end.

(** [con.execute(sql)] together with the conversion of its result. *)
Definition execute (con : nat) (sql : string) : M Table :=
  λ w, (duck_execute db w sql, w ++ [Execute con sql]).

(** [con.execute(sql).fetchall()] *)
Definition fetchall (con : nat) (sql : string) : M (list (list Cell)) :=
  t <- execute con sql ;; ret (tuples t).

(** [con.execute(sql).df().to_dict(orient="records")]: pandas builds one
    [dict(zip(columns, row))] per row of the DataFrame. *)
Definition to_records (t : Table) : PyVal :=
  PList ((λ row, PDict (dict_of_pairs (zip (columns t) row))) <$> frame t).

Definition df_records (con : nat) (sql : string) : M PyVal :=
  t <- execute con sql ;; ret (to_records t).

(** [con.close()] *)
Definition close (con : nat) : M unit := λ w, (Ok tt, w ++ [Close con]).

(** [row[i]] on a result tuple *)
Definition tuple_get (row : list Cell) (i : nat) : Result Cell :=
  match row !! i with
  | Some v => Ok v
  | None => Raise (IndexError "tuple index out of range")
  end.

(** [table_name.startswith("DIM_")] *)
Definition startswith_DIM (table_name : Cell) : Result bool :=
  match table_name with
  | CText s => Ok (String.prefix "DIM_" s)
  | _ => Raise (AttributeError "object has no attribute 'startswith'")
  end.

(** [col_type in ['VARCHAR', 'STRING']] *)
Definition is_text_type (col_type : Cell) : bool :=
  match col_type with
  | CText s => bool_decide (s = "VARCHAR") || bool_decide (s = "STRING")
  | _ => false
  end.

(** The body of the inner loop of [get_schema], lines 96-108. *)
Definition describe_column (con : nat) (table_name : Cell) (col : list Cell) : M string :=
  col_name <- lift (tuple_get col 0) ;;
  col_type <- lift (tuple_get col 1) ;;
  dim <- lift (startswith_DIM table_name) ;;
  distinct_values_str <-
    (if dim && is_text_type col_type then
       distinct_values <- fetchall con ("SELECT DISTINCT " +:+ cell_str col_name +:+ " FROM "
                                        +:+ cell_str table_name +:+ " LIMIT 50") ;;
       values_list <- for_each (λ v, x <- lift (tuple_get v 0) ;; ret (cell_str x)) distinct_values ;;
       ret (" (Values: " +:+ join ", " values_list +:+ ")")
     else ret "") ;;
  ret (cell_str col_name +:+ " (" +:+ cell_str col_type +:+ ")" +:+ distinct_values_str).

(** The body of the outer loop of [get_schema], lines 90-111. *)
Definition describe_table (con : nat) (table : list Cell) : M string :=
  table_name <- lift (tuple_get table 0) ;;
  cols <- fetchall con ("DESCRIBE " +:+ cell_str table_name) ;;
  col_descriptions <- for_each (describe_column con table_name) cols ;;
  ret ("Table: " +:+ cell_str table_name +:+ nl +:+ "Columns: " +:+ join ", " col_descriptions).

Definition get_schema : M string :=
  con <- connect ;;
  tables <- fetchall con "SHOW TABLES" ;;
  schema_info <- for_each (describe_table con) tables ;;
  close con ;;;
  ret (join (nl +:+ nl) schema_info).

Definition prompt_head : string :=
  "You are a SQL expert. Given the following database schema, write a SQL query to answer the user's question.
    
    Follow these rules:
    1. Return only SQLâ€”no explanations, comments, or natural-language text.
    2. Use only the tables and columns provided in the schema.
    3. Do not invent fields, tables, or values.
    4. Prefer simple, readable SQL.
    5. If the question is ambiguous, choose the safest reasonable interpretation based strictly on the schema.
    6. Never modify the database; generate only SELECT queries unless explicitly instructed otherwise.
    7. When filters involve text, use case-insensitive matching when appropriate.
    8. If the user asks for something impossible with the available schema, generate the closest valid SQL query.

    Schema:
    ".

Definition prompt_middle : string :=
  "

    Question: ".

Definition prompt_tail : string :=
  "
    
    Return ONLY the SQL query. Do not include markdown formatting (```sql ... ```) or explanations.
    ".

Definition generate_sql (question : string) : M string :=
  schema <- get_schema ;;
  lift (llm_invoke llm (prompt_head +:+ schema +:+ prompt_middle +:+ question +:+ prompt_tail)).

(** [run_sql]: the value computed inside [try] is [inr result]; the
    [return] of the [except] clause is [inl text]. *)
Definition run_sql (question : string) : M PyVal :=
  sql_query <- generate_sql question ;;
  con <- connect ;;
  outcome <- try_finally
               (try_except
                  (result <- df_records con sql_query ;; ret (inr result))
                  (λ e, ret (inl (PStr ("Error executing SQL: " +:+ exn_str e)))))
               (close con) ;;
  match outcome with
  | inl text => ret text
  | inr result => ret (PDict [("query", PStr sql_query); ("sql_result", result)])
  end.

End WithServices.

(** Connections opened and closed in a stretch of the trace. *)
Definition connects (evs : list Event) : list nat :=
  omap (λ e, match e with Connect c => Some c | _ => None end) evs.

Definition closes (evs : list Event) : list nat :=
  omap (λ e, match e with Close c => Some c | _ => None end) evs.

Definition still_open (evs : list Event) : list nat :=
  filter (λ c, c ∉ closes evs) (connects evs).

Definition is_execute (c : nat) (e : Event) : Prop := ∃ sql, e = Execute c sql.

(** A computation that only executes statements on connection [c]. *)
Definition execs_only {A} (c : nat) (m : M A) : Prop :=
  ∀ w, ∃ evs, (m w).2 = w ++ evs ∧ Forall (is_execute c) evs.

End Tools.

(** ** src/agent/agent.py *)
Module Agent.
Local Open Scope res_scope.

(** One entry of [msg.tool_calls]. *)
Record ToolCallReq := { tc_id : string; tc_name : string; tc_args : PyVal }.

(** A message of the agent framework.  [msg_tool_calls] and
    [msg_tool_call_id] are [None] when the message has no such attribute. *)
Record Message := {
  msg_content : PyVal;
  msg_tool_calls : option (list ToolCallReq);
  msg_tool_call_id : option string
}.

(** A value of the correlation map [tool_calls]. *)
Record Call := { name : string; args : PyVal; result : PyVal }.

(** [json] and [pandas], as far as [format_tool_details] uses them. *)
Record Libs := {
  json_loads : string → Result PyVal;
  json_dumps : PyVal → string;
  json_dumps_indent2 : PyVal → string;
  dataframe_to_string : PyVal → Result string
}.

(** The agent executor built by [create_agent]: [self.agent.invoke(...)]
    yields [result["messages"]] or raises. *)
Record Framework := { agent_invoke : string → Result (list Message) }.

(** The placeholder stored at line 118: [[]]. *)
Definition placeholder : PyVal := PList [].

(** Lines 114-119: every invocation of the message is recorded. *)
Definition record_calls (tcs : list ToolCallReq) (tool_calls : list (string * Call))
  : list (string * Call) :=
  foldl (λ d tc, dict_set (tc_id tc)
                   {| name := tc_name tc; args := tc_args tc; result := placeholder |} d)
        tool_calls tcs.

(** Lines 122-123: [tool_calls[msg.tool_call_id]["result"] = msg.content]. *)
Definition merge_result (msg : Message) (tool_calls : list (string * Call))
  : Result (list (string * Call)) :=
  match msg_tool_call_id msg with
  | Some id =>
      if decide (id = "") then Ok tool_calls
      else match dict_get id tool_calls with
           | Some call =>
               Ok (dict_set id {| name := name call; args := args call;
                                  result := msg_content msg |} tool_calls)
           | None => Raise (KeyError id)
           end
  | None => Ok tool_calls
  end.

(** The loop of lines 111-123. *)
Fixpoint collect (messages : list Message) (tool_calls : list (string * Call))
  : Result (list (string * Call)) :=
  match messages with
  | [] => Ok tool_calls
  | msg :: rest =>
      tool_calls' <- merge_result msg (record_calls (default [] (msg_tool_calls msg)) tool_calls) ;;
      collect rest tool_calls'
  end.

Section WithLibs.
Variable lib : Libs.

(** [json.loads(v)]: only a string is parsed; the message for another value
    names its type. *)
Definition py_json_loads (v : PyVal) : Result PyVal :=
  match v with
  | PStr s => json_loads lib s
  | _ => Raise (TypeError ("the JSON object must be str, bytes or bytearray, not "
                           +:+ py_type_name v))
  end.

(** [v[key]] for a string key. *)
Definition getitem (v : PyVal) (key : string) : Result PyVal :=
  match v with
  | PDict d => match dict_get key d with
               | Some x => Ok x
               | None => Raise (KeyError key)
               end
  | PStr _ => Raise (TypeError "string indices must be integers, not 'str'")
  | PList _ => Raise (TypeError "list indices must be integers or slices, not str")
  | _ => Raise (TypeError ("'" +:+ py_type_name v +:+ "' object is not subscriptable"))
  end.

(** [block += v]: the messages are those of CPython 3.11 and later. *)
Definition str_add (block : string) (v : PyVal) : Result string :=
  match v with
  | PStr s => Ok (block +:+ s)
  | _ => Raise (TypeError ("can only concatenate str (not " +:+ dq +:+ py_type_name v
                           +:+ dq +:+ ") to str"))
  end.

(** The body of the loop of [format_tool_details], lines 63-90. *)
Definition format_call (call : Call) : Result string :=
  result <- py_json_loads (result call) ;;
  let block := "Tool name: " +:+ name call +:+ nl +:+ nl +:+ "Args:" +:+ nl
               +:+ json_dumps_indent2 lib (args call) +:+ nl +:+ nl +:+ "Result:" +:+ nl in
  block <-
    (if decide (name call = "retrieve") then
       context <- getitem result "context" ;;
       block <- str_add block context ;;
       sources <- getitem result "sources" ;;
       Ok (block +:+ nl +:+ nl +:+ "Sources:" +:+ nl +:+ json_dumps lib sources)
     else if decide (name call = "run_sql") then
       query <- getitem result "query" ;;
       block <- str_add block query ;;
       sql_result <- getitem result "sql_result" ;;
       output <- dataframe_to_string lib sql_result ;;
       Ok (block +:+ nl +:+ nl +:+ "Output:" +:+ nl +:+ output)
     else str_add block result) ;;
  Ok (block +:+ nl +:+ nl).

Definition format_tool_details (tool_calls : list (string * Call)) : Result string :=
  output <- rmap format_call (snd <$> tool_calls) ;;
  Ok (join (nl +:+ nl) output).

Record Response := { answer_text : PyVal; tools : option string }.

(** [answer], from the messages returned by the agent executor on. *)
Definition answer_of_messages (messages : list Message) : Result Response :=
  match last messages with
  | None => Raise (IndexError "list index out of range")
  | Some last_message =>
      tool_calls <- collect messages [] ;;
      match tool_calls with
      | [] => Ok {| answer_text := msg_content last_message; tools := None |}
      | _ => formatted <- format_tool_details tool_calls ;;
             Ok {| answer_text := msg_content last_message; tools := Some formatted |}
      end
  end.

Definition answer (fw : Framework) (question : string) : Result Response :=
  messages <- agent_invoke fw question ;;
  answer_of_messages messages.

End WithLibs.

(** The entry of [id] is still the placeholder. *)
Definition pending (id : string) (d : list (string * Call)) : Prop :=
  ∃ call, dict_get id d = Some call ∧ result call = placeholder.

Definition records (id : string) (msg : Message) : Prop :=
  ∃ tcs tc, msg_tool_calls msg = Some tcs ∧ tc ∈ tcs ∧ tc_id tc = id.

End Agent.

(** ** src/app.py *)
Module App.

(** An entry of [st.session_state['messages']]. *)
Record ChatMessage := { role : string; content : PyVal; trace : option string }.

(** What one run of the script puts on the page. *)
Inductive Widget : Type :=
  | Markdown (role : string) (body : PyVal)
  | ToolDetails (code : string)
  | ErrorBanner (text : string).

(** How a run of the script ends: at its last line, or in [st.rerun()]. *)
Inductive Ending : Type := Finished | Rerun.

Record Page := { messages : list ChatMessage; widgets : list Widget; ending : Ending }.

(** Lines 22-29: the history is displayed. *)
Definition render_history (history : list ChatMessage) : list Widget :=
  history ≫= (λ message,
    Markdown (role message) (content message) ::
    match trace message with
    | Some t => [ToolDetails t]
    | None => []
    end).

(** One run of the script: [history] is [st.session_state['messages']],
    [prompt] is what [st.chat_input] returns and [agent_answer] is
    [st.session_state['agent'].answer]. *)
Definition run (agent_answer : string → Result Agent.Response)
    (history : list ChatMessage) (prompt : option string) : Page :=
  let shown := render_history history in
  match prompt with
  | None => {| messages := history; widgets := shown; ending := Finished |}
  | Some text =>
      if decide (text = "") then
        {| messages := history; widgets := shown; ending := Finished |}
      else
        let shown := shown ++ [Markdown "user" (PStr text)] in
        let history := history ++ [{| role := "user"; content := PStr text; trace := None |}] in
        match agent_answer text with
        | Ok response =>
            let shown := shown ++ [Markdown "assistant" (Agent.answer_text response)] in
            match Agent.tools response with
            | Some t =>
                {| messages := history ++ [{| role := "assistant";
                                              content := Agent.answer_text response;
                                              trace := Some t |}];
                   widgets := shown ++ [ToolDetails t];
                   ending := Rerun |}
            | None =>
                {| messages := history ++ [{| role := "assistant";
                                              content := Agent.answer_text response;
                                              trace := None |}];
                   widgets := shown;
                   ending := Rerun |}
            end
        | Raise e =>
            {| messages := history;
               widgets := shown ++ [ErrorBanner ("An error occurred: " +:+ exn_str e)];
               ending := Finished |}
        end
  end.

Definition user_message (text : string) : ChatMessage :=
  {| role := "user"; content := PStr text; trace := None |}.

End App.

(** ** src/setup_data.py *)
Module SetupData.

(** What the script does to the outside, in order. *)
Inductive Action : Type :=
  | Print (text : string)
  | DbConnect
  | DbExecute (sql : string)
  | DbClose
  | LoadPdf (path : string)
  | BuildIndex (chunks : list Tools.Document).

(** A call ends by returning or by raising. *)
Inductive Outcome (A : Type) : Type :=
  | Returned (a : A)
  | Raised (e : Exn).
Arguments Returned {A} a.
Arguments Raised {A} e.

Definition Script (A : Type) : Type := list Action → Outcome A * list Action.

Definition sret {A} (a : A) : Script A := λ w, (Returned a, w).

Definition sbind {A B} (m : Script A) (k : A → Script B) : Script B :=
  λ w, match m w with
       | (Returned a, w') => k a w'
       | (Raised e, w') => (Raised e, w')
       end.

Declare Scope setup_scope.
Delimit Scope setup_scope with setup.
Notation "x <- m ;; k" := (sbind m (λ x, k))
  (at level 100, m at next level, right associativity) : setup_scope.
Notation "m ;;; k" := (sbind m (λ _, k))
  (at level 100, right associativity) : setup_scope.
Local Open Scope setup_scope.

(** An effect: [act] is logged, and the call returns or raises as the host
    says. *)
Definition perform {A} (act : Action) (r : Result A) : Script A :=
  λ w, (match r with Ok a => Returned a | Raise e => Raised e end, w ++ [act]).

Definition print (text : string) : Script unit := perform (Print text) (Ok tt).

Fixpoint sfor {A} (f : A → Script unit) (l : list A) : Script unit :=
  match l with
  | [] => sret tt
  | x :: rest => f x ;;; sfor f rest
  end.

(** A loop that extends the list [documents]. *)
Fixpoint sfold {A B} (f : B → A → Script B) (acc : B) (l : list A) : Script B :=
  match l with
  | [] => sret acc
  | x :: rest => acc' <- f acc x ;; sfold f acc' rest
  end.

(** The file system, [os.path], the PDF loader, the splitter, Chroma and
    DuckDB; what they answer may depend on what was done before. *)
Record Host := {
  glob : string → list string;
  path_join : string → string → string;
  basename : string → string;
  splitext_root : string → string;
  load_pdf : list Action → string → Result (list Tools.Document);
  split_documents : list Tools.Document → Result (list Tools.Document);
  from_documents : list Action → list Tools.Document → Result nat;
  db_connect : list Action → Result unit;
  db_execute : list Action → string → Result (list (list Tools.Cell));
  repr_rows : list (list Tools.Cell) → string
}.

Definition DATA_DIR : string := "data".
Definition DOCS_DIR : string := "docs".

Section WithHost.
Variable host : Host.

(** [page.metadata["doc_type"] = doc_type] *)
Definition tag (doc_type : string) (page : Tools.Document) : Tools.Document :=
  {| Tools.page_content := Tools.page_content page;
     Tools.metadata := <["doc_type" := doc_type]> (Tools.metadata page) |}.

(** Lines 30-38. *)
Definition load_document (doc_type : string) (documents : list Tools.Document)
    (doc : string) : Script (list Tools.Document) :=
  print ("Loading " +:+ doc +:+ "...") ;;;
  docs <- (λ w, perform (LoadPdf doc) (load_pdf host w doc) w) ;;
  sret (documents ++ (tag doc_type <$> docs)).

(** Lines 25-38. *)
Definition load_folder (documents : list Tools.Document) (folder : string)
  : Script (list Tools.Document) :=
  let doc_type := basename host folder in
  let folder_docs := glob host (path_join host folder "*.pdf") in
  print ("Loading " +:+ doc_type +:+ "...") ;;;
  sfold (load_document doc_type) documents folder_docs.

Definition setup_rag_db : Script unit :=
  let folders := glob host (path_join host DOCS_DIR "*") in
  documents <- sfold load_folder [] folders ;;
  chunks <- (λ w, (match split_documents host documents with
                   | Ok c => Returned c
                   | Raise e => Raised e
                   end, w)) ;;
  print ("Split into " +:+ pretty (List.length chunks) +:+ " chunks.") ;;;
  count <- (λ w, perform (BuildIndex chunks) (from_documents host w chunks) w) ;;
  print ("Vectorstore created with " +:+ pretty count +:+ " documents").

(** Lines 60-66. *)
Definition load_csv (csv_file : string) : Script unit :=
  let table_name := splitext_root host (basename host csv_file) in
  print ("Loading " +:+ table_name +:+ " from " +:+ csv_file +:+ "...") ;;;
  let sql := "CREATE OR REPLACE TABLE " +:+ table_name
             +:+ " AS SELECT * FROM read_csv_auto('" +:+ csv_file +:+ "')" in
  _ <- (λ w, perform (DbExecute sql) (db_execute host w sql) w) ;;
  sret tt.

(** Lines 56-72 of [setup_sql_db]: everything before the two calls. *)
Definition sql_steps : Script unit :=
  print "Setting up DuckDB..." ;;;
  (λ w, perform DbConnect (db_connect host w) w) ;;;
  sfor load_csv (glob host (path_join host DATA_DIR "*.csv")) ;;;
  tables <- (λ w, perform (DbExecute "SHOW TABLES") (db_execute host w "SHOW TABLES") w) ;;
  print ("Tables created: " +:+ repr_rows host tables) ;;;
  perform DbClose (Ok tt) ;;;
  print "DuckDB setup complete.".

(** What the interpreter raises for a call beyond its recursion limit. *)
Definition recursion_error : Exn :=
  RecursionError "maximum recursion depth exceeded".

(** [setup_sql_db]: lines 74-75 are part of its body, so after [sql_steps]
    it calls [setup_rag_db] and then itself.  The recursion has no base
    case; it ends at the recursion limit of the interpreter
    ([sys.getrecursionlimit()], 1000 unless changed).  [frames] is the
    number of nested calls of [setup_sql_db] that still fit under that
    limit: the call that does not fit raises [RecursionError].  The stack
    that the library calls of a round need on top of it is not counted, so
    the interpreter may raise the same error from inside the last round
    instead of at its next call. *)
Fixpoint setup_sql_db (frames : nat) : Script unit :=
  match frames with
  | 0 => λ w, (Raised recursion_error, w)
  | S frames' => sql_steps ;;; setup_rag_db ;;; setup_sql_db frames'
  end.

(** The module level: imports, [load_dotenv()], the path constants and the
    two [def]s; no function is called. *)
Definition module_level : Script unit := sret tt.

End WithHost.

(** How often a text was printed. *)
Definition is_print (text : string) (a : Action) : bool :=
  match a with
  | Print t => bool_decide (t = text)
  | _ => false
  end.

Definition printed (text : string) (w : list Action) : nat :=
  List.length (List.filter (is_print text) w).

(** A script that returns from every state. *)
Definition returns {A} (m : Script A) : Prop :=
  ∀ w, ∃ a w', m w = (Returned a, w').

(** Every call into the PDF loader, the splitter, Chroma and DuckDB succeeds. *)
Definition cooperative (host : Host) : Prop :=
  (∀ w path, is_ok (load_pdf host w path) = true) ∧
  (∀ docs, is_ok (split_documents host docs) = true) ∧
  (∀ w chunks, is_ok (from_documents host w chunks) = true) ∧
  (∀ w, is_ok (db_connect host w) = true) ∧
  (∀ w sql, is_ok (db_execute host w sql) = true).

End SetupData.

(** ** Sample services used to run the model *)
Module Samples.
Import Tools.

Definition doc_a : Document :=
  {| page_content := "Warranty covers the engine."; metadata := {["source" := "warranty.pdf"]} |}.
Definition doc_b : Document :=
  {| page_content := "Warranty covers the engine."; metadata := {["source" := "copy.pdf"]} |}.
Definition doc_c : Document :=
  {| page_content := "Tyres are excluded."; metadata := ∅ |}.
Definition sample_index : VectorIndex :=
  {| vs_invoke := λ _ k _, Ok (take k [doc_a; doc_b; doc_c]) |}.

(** A result of texts and integers without NULL and with distinct column
    names: DuckDB and pandas leave such labels and values as they are. *)
Definition table_of (labels : list string) (rows : list (list Cell)) : Table :=
  {| tuples := rows; columns := labels; frame := List.map (List.map cell_val) rows |}.

(** A store with one dimension table of two columns. *)
Definition sample_duck : Duck :=
  {| duck_connect := λ _, None;
     duck_execute := λ _ sql,
       if decide (sql = "SHOW TABLES") then
         Ok (table_of ["name"] [[CText "DIM_MODEL"]])
       else if decide (sql = "DESCRIBE DIM_MODEL") then
         Ok (table_of ["column_name"; "column_type"]
               [[CText "model"; CText "VARCHAR"]; [CText "year"; CText "BIGINT"]])
       else if decide (sql = "SELECT DISTINCT model FROM DIM_MODEL LIMIT 50") then
         Ok (table_of ["model"] [[CText "Corolla"]; [CText "Yaris"]])
       else if decide (sql = "SELECT model, year FROM DIM_MODEL") then
         Ok (table_of ["model"; "year"]
               [[CText "Corolla"; CInteger 2023]; [CText "Yaris"; CInteger 2024]])
       else Raise (ExternalError "CatalogException" "Table does not exist") |}.

(** A store without tables. *)
Definition empty_duck : Duck :=
  {| duck_connect := λ _, None;
     duck_execute := λ _ sql,
       if decide (sql = "SHOW TABLES") then Ok (table_of ["name"] [])
       else Raise (ExternalError "CatalogException" "Table does not exist") |}.

(** A store whose catalog lists a table that cannot be described. *)
Definition broken_duck : Duck :=
  {| duck_connect := λ _, None;
     duck_execute := λ _ sql,
       if decide (sql = "SHOW TABLES") then
         Ok (table_of ["name"] [[CText "my table"]])
       else Raise (ExternalError "ParserException" "syntax error at or near table") |}.

(** The DataFrame of an aggregate over a table with a missing year: the
    average is a float and the missing value is [nan]. *)
Definition aggregate_table : Table :=
  {| tuples := [[CText "Corolla"; CNull; CInteger 3]];
     columns := ["model"; "year"; "n"];
     frame := [[PStr "Corolla"; PFloat SpecFloat.S754_nan; PInt 3]] |}.

Definition aggregate_duck : Duck :=
  {| duck_connect := λ _, None;
     duck_execute := λ _ sql,
       if decide (sql = "SHOW TABLES") then Ok (table_of ["name"] [])
       else Ok aggregate_table |}.

Definition good_llm : ChatModel := {| llm_invoke := λ _, Ok "SELECT model, year FROM DIM_MODEL" |}.
Definition bad_llm : ChatModel := {| llm_invoke := λ _, Ok "SELECT * FROM sales" |}.

(** Messages of a turn whose only tool invocation never gets a result. *)
Definition human (text : string) : Agent.Message :=
  {| Agent.msg_content := PStr text; Agent.msg_tool_calls := None;
     Agent.msg_tool_call_id := None |}.
Definition ai (text : string) (tcs : list Agent.ToolCallReq) : Agent.Message :=
  {| Agent.msg_content := PStr text; Agent.msg_tool_calls := Some tcs;
     Agent.msg_tool_call_id := None |}.
Definition tool_message (id text : string) : Agent.Message :=
  {| Agent.msg_content := PStr text; Agent.msg_tool_calls := None;
     Agent.msg_tool_call_id := Some id |}.

Definition call_1 : Agent.ToolCallReq :=
  {| Agent.tc_id := "call_1"; Agent.tc_name := "retrieve";
     Agent.tc_args := PDict [("question", PStr "engine?"); ("doc_type", PStr "contracts")] |}.

Definition unanswered_turn : list Agent.Message :=
  [human "engine?"; ai "" [call_1]; ai "The warranty covers the engine." []].

Definition orphan_turn : list Agent.Message :=
  [human "engine?"; ai "" [call_1]; tool_message "call_9" "{}";
   ai "The warranty covers the engine." []].

(** Library stand-ins: every text parses to an empty object. *)
Definition sample_libs : Agent.Libs :=
  {| Agent.json_loads := λ _, Ok (PDict []);
     Agent.json_dumps := λ _, "[]";
     Agent.json_dumps_indent2 := λ _, "{}";
     Agent.dataframe_to_string := λ _, Ok "Empty DataFrame" |}.

Definition failing_framework : Agent.Framework :=
  {| Agent.agent_invoke := λ _, Raise (ExternalError "APIConnectionError" "Connection error.") |}.

(** A host with one CSV file and one PDF, on which every step succeeds. *)
Definition sample_host : SetupData.Host :=
  {| SetupData.glob := λ pattern,
       if decide (pattern = "data/*.csv") then ["data/sales.csv"]
       else if decide (pattern = "docs/*") then ["docs/contracts"]
       else if decide (pattern = "docs/contracts/*.pdf") then ["docs/contracts/warranty.pdf"]
       else [];
     SetupData.path_join := λ a b, a +:+ "/" +:+ b;
     SetupData.basename := λ path,
       if decide (path = "data/sales.csv") then "sales.csv"
       else if decide (path = "docs/contracts") then "contracts"
       else path;
     SetupData.splitext_root := λ name,
       if decide (name = "sales.csv") then "sales" else name;
     SetupData.load_pdf := λ _ _, Ok [doc_c];
     SetupData.split_documents := λ docs, Ok docs;
     SetupData.from_documents := λ _ chunks, Ok (List.length chunks);
     SetupData.db_connect := λ _, Ok tt;
     SetupData.db_execute := λ _ sql,
       if decide (sql = "SHOW TABLES") then Ok [[Tools.CText "sales"]] else Ok [];
     SetupData.repr_rows := λ _, "[('sales',)]" |}.

End Samples.

(** ** Properties of retrieve *)
Module ToolsFacts.
Import Tools Samples.
Local Open Scope py_scope.

Lemma dedup_loop_spec docs : ∀ acc seen,
  NoDup (page_content <$> acc) →
  (∀ t, t ∈ seen ↔ t ∈ page_content <$> acc) →
  let out := dedup_loop docs acc seen in
  NoDup (page_content <$> out) ∧
  (∀ t, t ∈ page_content <$> out ↔
        t ∈ page_content <$> acc ∨ t ∈ page_content <$> docs) ∧
  (∀ d, d ∈ out → d ∈ acc ∨ d ∈ docs) ∧
  List.length out ≤ List.length acc + List.length docs.
Proof.
  induction docs as [|doc rest IH]; intros acc seen Hnd Hseen; simpl.
  - split; [done|]. split; [|split; [tauto | lia]].
    intros t. rewrite elem_of_nil. tauto.
  - case_decide as Hin.
    + destruct (IH acc seen Hnd Hseen) as (H1 & H2 & H3 & H4).
      split; [done|]. split; [|split].
      * intros t. rewrite H2, elem_of_cons. apply Hseen in Hin.
        split; [tauto|]. intros [?|[->|?]]; tauto.
      * intros d Hd. apply H3 in Hd. rewrite elem_of_cons. tauto.
      * lia.
    + destruct (IH (acc ++ [doc]) ({[page_content doc]} ∪ seen)) as (H1 & H2 & H3 & H4).
      * rewrite fmap_app. apply NoDup_app. split; [done|]. split.
        -- intros t Ht. apply Hseen in Ht. simpl. rewrite list_elem_of_singleton.
           intros ->. done.
        -- simpl. apply NoDup_singleton.
      * intros t. rewrite fmap_app, elem_of_app, elem_of_union, elem_of_singleton, Hseen.
        simpl. rewrite list_elem_of_singleton. tauto.
      * rewrite length_app in H4. simpl in H4.
        split; [done|]. split; [|split].
        -- intros t. rewrite H2, fmap_app, elem_of_app, elem_of_cons. simpl.
           rewrite list_elem_of_singleton. tauto.
        -- intros d Hd. apply H3 in Hd. rewrite elem_of_app, list_elem_of_singleton in Hd.
           rewrite elem_of_cons. tauto.
        -- lia.
Qed.

Lemma unique_docs_spec docs :
  NoDup (context_passages docs) ∧
  (∀ t, t ∈ context_passages docs ↔ t ∈ page_content <$> docs) ∧
  (∀ d, d ∈ unique_docs_of docs → d ∈ docs) ∧
  List.length (unique_docs_of docs) ≤ List.length docs.
Proof.
  unfold context_passages, unique_docs_of.
  destruct (dedup_loop_spec docs [] ∅) as (H1 & H2 & H3 & H4).
  - apply NoDup_nil_2.
  - intros t. rewrite elem_of_empty. simpl. rewrite elem_of_nil. tauto.
  - split; [done|]. split; [|split].
    + intros t. rewrite H2. simpl. rewrite elem_of_nil. tauto.
    + intros d Hd. apply H3 in Hd. rewrite elem_of_nil in Hd. tauto.
    + simpl in H4. lia.
Qed.

Lemma sources_of_NoDup docs : NoDup (sources_of docs).
Proof. unfold sources_of. apply NoDup_elements. Qed.

Lemma elem_of_sources_of docs s :
  s ∈ sources_of docs ↔ ∃ d, d ∈ unique_docs_of docs ∧ source_of d = s.
Proof.
  unfold sources_of. rewrite elem_of_elements, elem_of_list_to_set, list_elem_of_fmap.
  split; intros (d & H1 & H2); exists d; auto.
Qed.

Lemma sources_of_length docs :
  List.length (sources_of docs) ≤ List.length (unique_docs_of docs).
Proof.
  rewrite <- (length_fmap source_of (unique_docs_of docs)).
  apply submseteq_length, NoDup_submseteq; [apply sources_of_NoDup|].
  intros s. unfold sources_of. rewrite elem_of_elements, elem_of_list_to_set. done.
Qed.

Lemma filter_absent (l : list string) t : t ∉ l → filter (λ x, x = t) l = [].
Proof.
  induction l as [|x l IH]; intros Hnot; [done|].
  apply not_elem_of_cons in Hnot as [Hne Hnot].
  rewrite filter_cons_False by congruence. by apply IH.
Qed.

Lemma NoDup_occurs_once (l : list string) t :
  NoDup l → t ∈ l → List.length (filter (λ x, x = t) l) = 1.
Proof.
  induction 1 as [|x l Hx Hnd IH]; intros Hin; [by apply elem_of_nil in Hin|].
  destruct (decide (x = t)) as [->|Hne].
  - rewrite filter_cons_True by done. by rewrite filter_absent.
  - rewrite filter_cons_False by done. apply IH.
    apply elem_of_cons in Hin as [->|Hin]; done.
Qed.

(** C1: whatever passages the vector index hands to [retrieve], the context
    is the join of the passage texts kept by the deduplication, in which the
    text of every returned passage occurs exactly once (no text twice, no
    text lost, nothing else added), and the returned sources list has no
    repeated identifier. *)
Theorem retrieve_dedups (ix : VectorIndex) (question doc_type : string) :
  match vs_invoke ix question 3 doc_type with
  | Ok docs =>
      retrieve ix question doc_type =
        Ok (PDict [("context", PStr (join (nl +:+ nl) (context_passages docs)));
                   ("sources", PList (PStr <$> sources_of docs))]) ∧
      NoDup (context_passages docs) ∧
      (∀ t, t ∈ page_content <$> docs ↔ t ∈ context_passages docs) ∧
      (∀ d, d ∈ docs →
            List.length (filter (λ x, x = page_content d) (context_passages docs)) = 1) ∧
      NoDup (sources_of docs)
  | Raise e => retrieve ix question doc_type = Raise e
  end.
Proof.
  unfold retrieve. destruct (vs_invoke ix question 3 doc_type) as [docs|e]; [|done].
  destruct (unique_docs_spec docs) as (H1 & H2 & _).
  split; [done|]. split; [done|]. split; [|split; [|apply sources_of_NoDup]].
  - intros t. symmetry. apply H2.
  - intros d Hd. apply NoDup_occurs_once; [done|]. apply H2.
    apply list_elem_of_fmap. by exists d.
Qed.


Example retrieve_sample :
  retrieve sample_index "engine?" "contracts" =
    Ok (PDict [("context", PStr ("Warranty covers the engine." +:+ nl +:+ nl +:+ "Tyres are excluded."));
               ("sources", PList (PStr <$> sources_of [doc_a; doc_b; doc_c]))]) ∧
  list_to_set (sources_of [doc_a; doc_b; doc_c]) = ({["warranty.pdf"; "Unknown"]} : gset string).
Proof. split; vm_compute; reflexivity. Qed.


Example get_schema_sample :
  get_schema sample_duck [] =
    (Ok ("Table: DIM_MODEL" +:+ nl +:+ "Columns: model (VARCHAR) (Values: Corolla, Yaris), year (BIGINT)"),
     [Connect 0; Execute 0 "SHOW TABLES"; Execute 0 "DESCRIBE DIM_MODEL";
      Execute 0 "SELECT DISTINCT model FROM DIM_MODEL LIMIT 50"; Close 0]).
Proof. vm_compute. reflexivity. Qed.

Example run_sql_sample :
  run_sql sample_duck good_llm "Which models?" [] =
    (Ok (PDict [("query", PStr "SELECT model, year FROM DIM_MODEL");
                ("sql_result", PList [PDict [("model", PStr "Corolla"); ("year", PInt 2023)];
                                      PDict [("model", PStr "Yaris"); ("year", PInt 2024)]])]),
     [Connect 0; Execute 0 "SHOW TABLES"; Execute 0 "DESCRIBE DIM_MODEL";
      Execute 0 "SELECT DISTINCT model FROM DIM_MODEL LIMIT 50"; Close 0;
      Connect 5; Execute 5 "SELECT model, year FROM DIM_MODEL"; Close 5]).
Proof. vm_compute. reflexivity. Qed.

Example run_sql_failure_sample :
  run_sql sample_duck bad_llm "Total sales?" [] =
    (Ok (PStr "Error executing SQL: Table does not exist"),
     [Connect 0; Execute 0 "SHOW TABLES"; Execute 0 "DESCRIBE DIM_MODEL";
      Execute 0 "SELECT DISTINCT model FROM DIM_MODEL LIMIT 50"; Close 0;
      Connect 5; Execute 5 "SELECT * FROM sales"; Close 5]).
Proof. vm_compute. reflexivity. Qed.

(** *** run_sql and get_schema *)

Section RunSql.
Variable db : Duck.
Variable llm : ChatModel.

Lemma run_sql_after_generate question w sql w1 :
  generate_sql db llm question w = (Ok sql, w1) →
  duck_connect db w1 = None →
  let con := List.length w1 in
  run_sql db llm question w =
    match duck_execute db (w1 ++ [Connect con]) sql with
    | Ok t => (Ok (PDict [("query", PStr sql); ("sql_result", to_records t)]),
               w1 ++ [Connect con; Execute con sql; Close con])
    | Raise e => (Ok (PStr ("Error executing SQL: " +:+ exn_str e)),
                  w1 ++ [Connect con; Execute con sql; Close con])
    end.
Proof.
  intros Hgen Hcon con. unfold run_sql, bind at 1. rewrite Hgen.
  unfold bind at 1, connect. rewrite Hcon. fold con.
  unfold bind, try_finally, try_except, df_records, bind, execute, close, ret.
  destruct (duck_execute db (w1 ++ [Connect con]) sql) as [t|e];
    rewrite <- !app_assoc; reflexivity.
Qed.

End RunSql.

(** C2: when the statement produced by [generate_sql] fails to execute,
    [run_sql] does not raise: its result is the text
    "Error executing SQL: ..." and the connection it opened is closed. *)
Theorem run_sql_execution_failure (db : Duck) (llm : ChatModel)
    (question : string) (w w1 : World) (sql : string) (e : Exn) :
  generate_sql db llm question w = (Ok sql, w1) →
  duck_connect db w1 = None →
  duck_execute db (w1 ++ [Connect (List.length w1)]) sql = Raise e →
  let con := List.length w1 in
  run_sql db llm question w =
    (Ok (PStr ("Error executing SQL: " +:+ exn_str e)),
     w1 ++ [Connect con; Execute con sql; Close con]) ∧
  con ∈ closes [Connect con; Execute con sql; Close con].
Proof.
  intros Hgen Hcon Hex con. split.
  - rewrite (run_sql_after_generate db llm question w sql w1 Hgen Hcon).
    subst con. cbv zeta. rewrite Hex. reflexivity.
  - simpl. apply list_elem_of_singleton. reflexivity.
Qed.

Lemma run_sql_execution_failure_witness :
  run_sql sample_duck bad_llm "Total sales?" [] =
    (Ok (PStr "Error executing SQL: Table does not exist"),
     [Connect 0; Execute 0 "SHOW TABLES"; Execute 0 "DESCRIBE DIM_MODEL";
      Execute 0 "SELECT DISTINCT model FROM DIM_MODEL LIMIT 50"; Close 0]
     ++ [Connect 5; Execute 5 "SELECT * FROM sales"; Close 5]) ∧
  5 ∈ closes [Connect 5; Execute 5 "SELECT * FROM sales"; Close 5].
Proof.
  apply (run_sql_execution_failure sample_duck bad_llm "Total sales?" []
           [Connect 0; Execute 0 "SHOW TABLES"; Execute 0 "DESCRIBE DIM_MODEL";
            Execute 0 "SELECT DISTINCT model FROM DIM_MODEL LIMIT 50"; Close 0]
           "SELECT * FROM sales" (ExternalError "CatalogException" "Table does not exist")).
  - vm_compute. reflexivity.
  - reflexivity.
  - vm_compute. reflexivity.
Defined.

Lemma dict_lookup_set {V} k (v : V) d : dict_get k (dict_set k v d) = Some v.
Proof.
  induction d as [|[k' v'] rest IH]; simpl.
  - by rewrite decide_True.
  - destruct (decide (k' = k)) as [->|Hne]; simpl.
    + by rewrite decide_True.
    + by rewrite decide_False.
Qed.

Lemma dict_lookup_set_ne {V} k k' (v : V) d :
  k ≠ k' → dict_get k (dict_set k' v d) = dict_get k d.
Proof.
  intros Hne. induction d as [|[k0 v0] rest IH]; simpl.
  - rewrite decide_False; [done|]. congruence.
  - destruct (decide (k0 = k')) as [->|Hne0]; simpl.
    + rewrite !decide_False; [done|congruence..].
    + destruct (decide (k0 = k)); [done|]. apply IH.
Qed.

(** Lookups in the dictionary built from a list of pairs: a key that no pair
    has is not added, and a key takes the value of its last pair. *)
Lemma dict_fold_absent {V} k (pairs : list (string * V)) : ∀ d,
  (∀ j v, pairs !! j ≠ Some (k, v)) →
  dict_get k (foldl (λ d kv, dict_set kv.1 kv.2 d) d pairs) = dict_get k d.
Proof.
  induction pairs as [|[k0 v0] rest IH]; intros d Hno; [done|].
  simpl. rewrite IH.
  - apply dict_lookup_set_ne. intros ->. by apply (Hno 0 v0).
  - intros j v. apply (Hno (S j) v).
Qed.

Lemma dict_fold_last {V} k (v : V) (pairs : list (string * V)) : ∀ d j,
  pairs !! j = Some (k, v) →
  (∀ j' v', j < j' → pairs !! j' ≠ Some (k, v')) →
  dict_get k (foldl (λ d kv, dict_set kv.1 kv.2 d) d pairs) = Some v.
Proof.
  induction pairs as [|[k0 v0] rest IH]; intros d j Hj Hlast; [done|].
  destruct j as [|j]; simpl in *.
  - injection Hj as -> ->. rewrite dict_fold_absent; [apply dict_lookup_set|].
    intros j v'. apply (Hlast (S j) v'). lia.
  - apply (IH _ j Hj). intros j' v' Hlt. apply (Hlast (S j') v'). lia.
Qed.

Lemma dict_fold_keys {V} k (pairs : list (string * V)) : ∀ d,
  is_Some (dict_get k (foldl (λ d kv, dict_set kv.1 kv.2 d) d pairs)) →
  is_Some (dict_get k d) ∨ ∃ j v, pairs !! j = Some (k, v).
Proof.
  induction pairs as [|[k0 v0] rest IH]; intros d H; [by left|].
  simpl in H. apply IH in H as [H|(j & v & Hj)].
  - destruct (decide (k = k0)) as [->|Hne].
    + right. by exists 0, v0.
    + left. by rewrite dict_lookup_set_ne in H.
  - right. by exists (S j), v.
Qed.

(** C7: when the generated statement executes, [run_sql] returns a
    dictionary of exactly two entries: "query" holds the generated statement
    text and the second entry (key "sql_result") holds one record per row
    of the result, in result order; each record maps every column label to
    the value of its row in that column (for a label that stands over two
    columns, the later one's) and has no key that is not a column label. *)
Theorem run_sql_success_shape (db : Duck) (llm : ChatModel)
    (question : string) (w w1 : World) (sql : string) (t : Table) :
  generate_sql db llm question w = (Ok sql, w1) →
  duck_connect db w1 = None →
  duck_execute db (w1 ++ [Connect (List.length w1)]) sql = Ok t →
  ∃ records : list (list (string * PyVal)),
    (run_sql db llm question w).1 =
      Ok (PDict [("query", PStr sql); ("sql_result", PList (PDict <$> records))]) ∧
    List.length records = List.length (frame t) ∧
    ∀ i row record,
      frame t !! i = Some row →
      records !! i = Some record →
      (∀ j c v,
         columns t !! j = Some c →
         row !! j = Some v →
         (∀ j', j < j' → j' < List.length row → columns t !! j' ≠ Some c) →
         dict_get c record = Some v) ∧
      (∀ c, is_Some (dict_get c record) →
            ∃ j, j < List.length row ∧ columns t !! j = Some c).
Proof.
  intros Hgen Hcon Hex.
  exists ((λ row, dict_of_pairs (zip (columns t) row)) <$> frame t).
  split; [|split].
  - rewrite (run_sql_after_generate db llm question w sql w1 Hgen Hcon).
    cbv zeta. rewrite Hex. unfold to_records. simpl.
    by rewrite <- list_fmap_compose.
  - apply length_fmap.
  - intros i row record Hrow Hrec.
    rewrite list_lookup_fmap, Hrow in Hrec. injection Hrec as <-.
    unfold dict_of_pairs. split.
    + intros j c v Hc Hv Hlast. apply (dict_fold_last c v _ [] j).
      * apply lookup_zip_with_Some. by exists c, v.
      * intros j' v' Hlt Hj'. apply lookup_zip_with_Some in Hj' as (c' & x & Heq & Hc' & Hx).
        injection Heq as <- <-. apply (Hlast j' Hlt); [|done].
        by apply lookup_lt_Some in Hx.
    + intros c H. apply dict_fold_keys in H as [[? H]|(j & v & Hj)]; [done|].
      apply lookup_zip_with_Some in Hj as (c' & x & Heq & Hc' & Hx).
      injection Heq as <- <-. exists j. split; [|done]. by apply lookup_lt_Some in Hx.
Qed.

Lemma run_sql_success_shape_witness :
  ∃ records : list (list (string * PyVal)),
    (run_sql aggregate_duck good_llm "Which models?" []).1 =
      Ok (PDict [("query", PStr "SELECT model, year FROM DIM_MODEL");
                 ("sql_result", PList (PDict <$> records))]) ∧
    List.length records = List.length (frame aggregate_table) ∧
    ∀ i row record,
      frame aggregate_table !! i = Some row →
      records !! i = Some record →
      (∀ j c v,
         columns aggregate_table !! j = Some c →
         row !! j = Some v →
         (∀ j', j < j' → j' < List.length row → columns aggregate_table !! j' ≠ Some c) →
         dict_get c record = Some v) ∧
      (∀ c, is_Some (dict_get c record) →
            ∃ j, j < List.length row ∧ columns aggregate_table !! j = Some c).
Proof.
  apply (run_sql_success_shape aggregate_duck good_llm "Which models?" []
           [Connect 0; Execute 0 "SHOW TABLES"; Close 0]
           "SELECT model, year FROM DIM_MODEL" aggregate_table).
  - vm_compute. reflexivity.
  - reflexivity.
  - reflexivity.
Defined.

(** The records of the aggregate, with the float and the missing value. *)
Example run_sql_aggregate_sample :
  (run_sql aggregate_duck good_llm "Which models?" []).1 =
    Ok (PDict [("query", PStr "SELECT model, year FROM DIM_MODEL");
               ("sql_result",
                PList [PDict [("model", PStr "Corolla"); ("year", PFloat SpecFloat.S754_nan);
                              ("n", PInt 3)]])]).
Proof. vm_compute. reflexivity. Qed.

(** C9: over a store whose catalog lists no table, [get_schema] returns the
    empty string and raises nothing; its connection is closed. *)
Theorem get_schema_no_tables (db : Duck) (w : World) (t : Table) :
  duck_connect db w = None →
  duck_execute db (w ++ [Connect (List.length w)]) "SHOW TABLES" = Ok t →
  tuples t = [] →
  let con := List.length w in
  get_schema db w = (Ok "", w ++ [Connect con; Execute con "SHOW TABLES"; Close con]).
Proof.
  intros Hcon Hshow Hnone con. subst con.
  unfold get_schema, bind at 1, connect. rewrite Hcon.
  unfold bind at 1, fetchall, bind at 1, execute. rewrite Hshow.
  unfold ret at 1. rewrite Hnone. simpl.
  unfold bind, ret, close. rewrite <- !app_assoc. reflexivity.
Qed.

Lemma get_schema_no_tables_witness :
  get_schema empty_duck [] = (Ok "", [] ++ [Connect 0; Execute 0 "SHOW TABLES"; Close 0]).
Proof.
  apply (get_schema_no_tables empty_duck [] (table_of ["name"] []));
    reflexivity.
Defined.

(** *** Connections opened by one call of run_sql *)

Lemma execs_only_ret {A} c (a : A) : execs_only c (ret a).
Proof. intros w. exists []. simpl. by rewrite app_nil_r. Qed.

Lemma execs_only_lift {A} c (r : Result A) : execs_only c (lift r).
Proof. intros w. exists []. simpl. by rewrite app_nil_r. Qed.

Lemma execs_only_bind {A B} c (m : M A) (k : A → M B) :
  execs_only c m → (∀ a, execs_only c (k a)) → execs_only c (bind m k).
Proof.
  intros Hm Hk w. unfold bind. destruct (Hm w) as (evs & Hw & Hevs).
  destruct (m w) as [[a|e] w1]; simpl in Hw; subst w1.
  - destruct (Hk a (w ++ evs)) as (evs' & Hw' & Hevs').
    exists (evs ++ evs'). rewrite Hw', app_assoc. split; [done|].
    by apply Forall_app.
  - by exists evs.
Qed.

Lemma execs_only_for_each {A B} c (f : A → M B) l :
  (∀ a, execs_only c (f a)) → execs_only c (for_each f l).
Proof.
  intros Hf. induction l as [|x rest IH]; simpl.
  - apply execs_only_ret.
  - apply execs_only_bind; [apply Hf|]. intros y.
    apply execs_only_bind; [apply IH|]. intros ys. apply execs_only_ret.
Qed.

Lemma execs_only_fetchall db c sql : execs_only c (fetchall db c sql).
Proof.
  apply execs_only_bind; [|intros; apply execs_only_ret].
  intros w. exists [Execute c sql]. split; [done|].
  apply Forall_singleton. by exists sql.
Qed.

Lemma execs_only_describe_column db c table_name col :
  execs_only c (describe_column db c table_name col).
Proof.
  unfold describe_column.
  apply execs_only_bind; [apply execs_only_lift|]. intros col_name.
  apply execs_only_bind; [apply execs_only_lift|]. intros col_type.
  apply execs_only_bind; [apply execs_only_lift|]. intros dim.
  apply execs_only_bind; [|intros; apply execs_only_ret].
  destruct (dim && is_text_type col_type); [|apply execs_only_ret].
  apply execs_only_bind; [apply execs_only_fetchall|]. intros distinct_values.
  apply execs_only_bind; [|intros; apply execs_only_ret].
  apply execs_only_for_each. intros v.
  apply execs_only_bind; [apply execs_only_lift|]. intros; apply execs_only_ret.
Qed.

Lemma execs_only_describe_table db c table :
  execs_only c (describe_table db c table).
Proof.
  unfold describe_table.
  apply execs_only_bind; [apply execs_only_lift|]. intros table_name.
  apply execs_only_bind; [apply execs_only_fetchall|]. intros cols.
  apply execs_only_bind; [|intros; apply execs_only_ret].
  apply execs_only_for_each. intros col. apply execs_only_describe_column.
Qed.

(** The trace of [get_schema]: one connection, statements on it, and the
    close when no statement raised. *)
Lemma get_schema_trace db w s w' :
  get_schema db w = (Ok s, w') →
  duck_connect db w = None ∧
  ∃ evs, w' = w ++ [Connect (List.length w)] ++ evs ++ [Close (List.length w)] ∧
         Forall (is_execute (List.length w)) evs.
Proof.
  unfold get_schema, bind at 1, connect.
  destruct (duck_connect db w) as [e|]; [done|]. intros H. split; [done|].
  set (c := List.length w) in *. set (w1 := w ++ [Connect c]) in *.
  unfold bind at 1 in H.
  destruct (execs_only_fetchall db c "SHOW TABLES" w1) as (evs1 & Hw1 & He1).
  destruct (fetchall db c "SHOW TABLES" w1) as [[tables|e] w2]; [|done].
  simpl in Hw1. subst w2. unfold bind at 1 in H.
  destruct (execs_only_for_each c (describe_table db c) tables
              (execs_only_describe_table db c) (w1 ++ evs1)) as (evs2 & Hw2 & He2).
  destruct (for_each (describe_table db c) tables (w1 ++ evs1)) as [[info|e] w3]; [|done].
  simpl in Hw2. subst w3. unfold bind, close, ret in H.
  injection H as _ <-. exists (evs1 ++ evs2). split.
  - unfold w1. by rewrite <- !app_assoc.
  - by apply Forall_app.
Qed.

(** C8, as the code has it: a call of [run_sql] that returns (rows or the
    error text) has opened two connections, one after the other: the first
    inside [get_schema] during SQL generation, on which only statements are
    executed before it is closed, the second for the generated statement;
    each is closed before the call returns. *)
Theorem run_sql_connections (db : Duck) (llm : ChatModel) (question : string)
    (w w' : World) (v : PyVal) :
  run_sql db llm question w = (Ok v, w') →
  ∃ c1 c2 evs sql,
    w' = w ++ ([Connect c1] ++ evs ++ [Close c1]) ++ [Connect c2; Execute c2 sql; Close c2] ∧
    Forall (is_execute c1) evs ∧
    c1 ≠ c2 ∧
    connects (drop (List.length w) w') = [c1; c2] ∧
    closes (drop (List.length w) w') = [c1; c2] ∧
    still_open (drop (List.length w) w') = [].
Proof.
  intros H.
  destruct (generate_sql db llm question w) as [[sql|e] w1] eqn:Hgen;
    [|unfold run_sql, bind at 1 in H; rewrite Hgen in H; done].
  destruct (duck_connect db w1) as [e|] eqn:Hcon.
  { unfold run_sql, bind at 1 in H. rewrite Hgen in H.
    unfold bind at 1, connect in H. rewrite Hcon in H. done. }
  pose proof (run_sql_after_generate db llm question w sql w1 Hgen Hcon) as Hrun.
  cbv zeta in Hrun. rewrite Hrun in H.
  assert (w' = w1 ++ [Connect (List.length w1); Execute (List.length w1) sql;
                      Close (List.length w1)]) as ->.
  { destruct (duck_execute db (w1 ++ [Connect (List.length w1)]) sql); by injection H. }
  clear H Hrun.
  unfold generate_sql, bind, lift in Hgen.
  destruct (get_schema db w) as [[schema|e] w2] eqn:Hsch; [|done].
  assert (w2 = w1) as -> by (by injection Hgen).
  apply get_schema_trace in Hsch as (_ & evs & -> & Hevs).
  set (c1 := List.length w). set (new := [Connect c1] ++ evs ++ [Close c1]).
  set (c2 := List.length (w ++ new)).
  assert (c1 ≠ c2) as Hne.
  { unfold c2, c1, new. rewrite !length_app. simpl. lia. }
  assert (connects evs = [] ∧ closes evs = []) as [Hc1 Hc2].
  { clear -Hevs. induction Hevs as [|x l [sql' ->] _ [IH1 IH2]]; [done|].
    by split. }
  exists c1, c2, evs, sql. fold new. rewrite <- app_assoc.
  split; [reflexivity|]. split; [done|]. split; [done|].
  assert (∀ l : list Event, drop c1 (w ++ l) = l) as Hdrop
    by (intros l; apply drop_app_length).
  rewrite !Hdrop.
  assert (connects (new ++ [Connect c2; Execute c2 sql; Close c2]) = [c1; c2]) as Hco.
  { unfold connects, new. rewrite !omap_app. fold (connects evs). rewrite Hc1. done. }
  assert (closes (new ++ [Connect c2; Execute c2 sql; Close c2]) = [c1; c2]) as Hcl.
  { unfold closes, new. rewrite !omap_app. fold (closes evs). rewrite Hc2. done. }
  split; [done|]. split; [done|].
  unfold still_open. rewrite Hco, Hcl.
  rewrite !filter_cons_False, filter_nil; [done| |]; intros Hn; apply Hn; set_solver.
Qed.

(** When a statement of [get_schema] raises, the exception leaves the
    function before [con.close()]: the call raises and the connection of
    [get_schema] is not closed.  Such calls are outside the theorem above. *)
Example run_sql_schema_failure :
  run_sql broken_duck good_llm "Which models?" [] =
    (Raise (ExternalError "ParserException" "syntax error at or near table"),
     [Connect 0; Execute 0 "SHOW TABLES"; Execute 0 "DESCRIBE my table"]) ∧
  still_open [Connect 0; Execute 0 "SHOW TABLES"; Execute 0 "DESCRIBE my table"] = [0].
Proof. split; vm_compute; reflexivity. Qed.

Lemma run_sql_connections_witness :
  ∃ c1 c2 evs sql,
    [Connect 0; Execute 0 "SHOW TABLES"; Execute 0 "DESCRIBE DIM_MODEL";
     Execute 0 "SELECT DISTINCT model FROM DIM_MODEL LIMIT 50"; Close 0;
     Connect 5; Execute 5 "SELECT * FROM sales"; Close 5] =
      [] ++ ([Connect c1] ++ evs ++ [Close c1]) ++ [Connect c2; Execute c2 sql; Close c2] ∧
    Forall (is_execute c1) evs ∧
    c1 ≠ c2 ∧
    connects (drop (List.length ([] : World))
       [Connect 0; Execute 0 "SHOW TABLES"; Execute 0 "DESCRIBE DIM_MODEL";
        Execute 0 "SELECT DISTINCT model FROM DIM_MODEL LIMIT 50"; Close 0;
        Connect 5; Execute 5 "SELECT * FROM sales"; Close 5]) = [c1; c2] ∧
    closes (drop (List.length ([] : World))
       [Connect 0; Execute 0 "SHOW TABLES"; Execute 0 "DESCRIBE DIM_MODEL";
        Execute 0 "SELECT DISTINCT model FROM DIM_MODEL LIMIT 50"; Close 0;
        Connect 5; Execute 5 "SELECT * FROM sales"; Close 5]) = [c1; c2] ∧
    still_open (drop (List.length ([] : World))
       [Connect 0; Execute 0 "SHOW TABLES"; Execute 0 "DESCRIBE DIM_MODEL";
        Execute 0 "SELECT DISTINCT model FROM DIM_MODEL LIMIT 50"; Close 0;
        Connect 5; Execute 5 "SELECT * FROM sales"; Close 5]) = [].
Proof.
  apply (run_sql_connections sample_duck bad_llm "Total sales?" [] _
           (PStr "Error executing SQL: Table does not exist")).
  vm_compute. reflexivity.
Defined.

(** C8 as stated fails: this call of [run_sql] opens two connections (0 inside
    [get_schema], 3 for the statement), not exactly one. *)
Lemma run_sql_opens_two_connections :
  ∃ v w', run_sql empty_duck good_llm "Which models?" [] = (Ok v, w') ∧
          connects w' = [0; 3] ∧ List.length (connects w') ≠ 1.
Proof.
  eexists _, _. split; [vm_compute; reflexivity|]. split; [reflexivity|]. simpl. lia.
Qed.

End ToolsFacts.

(** ** Properties of the agent *)
Module AgentFacts.
Import Agent Samples.
Local Open Scope res_scope.

Lemma dict_get_set_eq {V} k (v : V) d : dict_get k (dict_set k v d) = Some v.
Proof.
  induction d as [|[k' v'] rest IH]; simpl.
  - by rewrite decide_True.
  - destruct (decide (k' = k)) as [->|Hne]; simpl.
    + by rewrite decide_True.
    + by rewrite decide_False.
Qed.

Lemma dict_get_set_ne {V} k k' (v : V) d :
  k ≠ k' → dict_get k (dict_set k' v d) = dict_get k d.
Proof.
  intros Hne. induction d as [|[k0 v0] rest IH]; simpl.
  - rewrite decide_False; [done|]. congruence.
  - destruct (decide (k0 = k')) as [->|Hne0]; simpl.
    + rewrite !decide_False; [done|congruence..].
    + destruct (decide (k0 = k)); [done|]. apply IH.
Qed.

Lemma dict_get_Some_values {V} k (v : V) d :
  dict_get k d = Some v → v ∈ snd <$> d.
Proof.
  induction d as [|[k' v'] rest IH]; simpl; [done|].
  destruct (decide (k' = k)).
  - intros [= ->]. apply elem_of_cons. by left.
  - intros H. apply elem_of_cons. right. by apply IH.
Qed.

Lemma record_calls_cons tc tcs d :
  record_calls (tc :: tcs) d =
    record_calls tcs (dict_set (tc_id tc)
       {| name := tc_name tc; args := tc_args tc; result := placeholder |} d).
Proof. reflexivity. Qed.

Lemma record_calls_absent id tcs : ∀ d,
  dict_get id d = None → (∀ tc, tc ∈ tcs → tc_id tc ≠ id) →
  dict_get id (record_calls tcs d) = None.
Proof.
  induction tcs as [|tc tcs IH]; intros d Hd Hno; [done|].
  rewrite record_calls_cons. apply IH.
  - rewrite dict_get_set_ne; [done|]. intros ->. eapply Hno; [|done]. apply elem_of_cons. by left.
  - intros tc' Hin. apply Hno. apply elem_of_cons. by right.
Qed.

Lemma dict_set_pending id tc d :
  pending id d ∨ tc_id tc = id →
  pending id (dict_set (tc_id tc)
     {| name := tc_name tc; args := tc_args tc; result := placeholder |} d).
Proof.
  intros H. destruct (decide (tc_id tc = id)) as [<-|Hne].
  - eexists. rewrite dict_get_set_eq. done.
  - destruct H as [(call & Hget & Hres)|]; [|done].
    exists call. rewrite dict_get_set_ne; [done|congruence].
Qed.

Lemma record_calls_pending id tcs : ∀ d,
  pending id d ∨ (∃ tc, tc ∈ tcs ∧ tc_id tc = id) →
  pending id (record_calls tcs d).
Proof.
  induction tcs as [|tc tcs IH]; intros d H.
  - destruct H as [H|(tc & Hin & _)]; [done|]. by apply elem_of_nil in Hin.
  - rewrite record_calls_cons. apply IH.
    destruct H as [H|(tc' & Hin & Hid)].
    + left. apply dict_set_pending. by left.
    + apply elem_of_cons in Hin as [->|Hin].
      * left. apply dict_set_pending. by right.
      * right. by exists tc'.
Qed.

Lemma merge_result_pending id msg d d' :
  msg_tool_call_id msg ≠ Some id → pending id d →
  merge_result msg d = Ok d' → pending id d'.
Proof.
  unfold merge_result. intros Hne Hp.
  destruct (msg_tool_call_id msg) as [id'|]; [|by intros [= <-]].
  destruct (decide (id' = "")); [by intros [= <-]|].
  destruct (dict_get id' d) as [call|]; [|done]. intros [= <-].
  destruct Hp as (c & Hget & Hres). exists c.
  rewrite dict_get_set_ne; [done|congruence].
Qed.

Lemma collect_pending id messages : ∀ d d',
  (∀ m, m ∈ messages → msg_tool_call_id m ≠ Some id) →
  pending id d ∨ (∃ m, m ∈ messages ∧ records id m) →
  collect messages d = Ok d' → pending id d'.
Proof.
  induction messages as [|msg rest IH]; intros d d' Hno H; simpl.
  - intros [= <-]. destruct H as [H|(m & Hin & _)]; [done|]. by apply elem_of_nil in Hin.
  - unfold rbind.
    destruct (merge_result msg (record_calls (default [] (msg_tool_calls msg)) d))
      as [d1|e] eqn:Hm; [|done].
    apply IH.
    + intros m Hin. apply Hno. apply elem_of_cons. by right.
    + assert (pending id d ∨ records id msg → pending id d1) as Hnow.
      { intros Hnow. eapply merge_result_pending; [| |exact Hm].
        - apply Hno. apply elem_of_cons. by left.
        - apply record_calls_pending. destruct Hnow as [?|(tcs & tc & Htcs & Hin & Hid)].
          + by left.
          + right. rewrite Htcs. simpl. by exists tc. }
      destruct H as [H|(m & Hin & Hrec)]; [left; apply Hnow; by left|].
      apply elem_of_cons in Hin as [->|Hin].
      * left. apply Hnow. by right.
      * right. by exists m.
Qed.

Section WithLibs.
Variable lib : Libs.

Lemma format_call_placeholder call :
  result call = placeholder →
  format_call lib call = Raise (TypeError "the JSON object must be str, bytes or bytearray, not list").
Proof. intros H. unfold format_call. rewrite H. reflexivity. Qed.

Lemma rmap_raises {A B} (f : A → Result B) l x e :
  x ∈ l → f x = Raise e → ∃ e', rmap f l = Raise e'.
Proof.
  induction l as [|y rest IH]; intros Hin Hx; [by apply elem_of_nil in Hin|].
  simpl. unfold rbind. apply elem_of_cons in Hin as [<-|Hin].
  - rewrite Hx. by eexists.
  - destruct (f y); [|by eexists]. destruct (IH Hin Hx) as (e' & ->). by eexists.
Qed.

Lemma format_tool_details_pending id d :
  pending id d → ∃ e, format_tool_details lib d = Raise e.
Proof.
  intros (call & Hget & Hres). unfold format_tool_details, rbind.
  destruct (rmap_raises (format_call lib) (snd <$> d) call _
              (dict_get_Some_values _ _ _ Hget) (format_call_placeholder call Hres))
    as (e & ->).
  by eexists.
Qed.

Lemma last_elem_of {A} (l : list A) x : x ∈ l → is_Some (last l).
Proof.
  intros Hin. destruct l as [|y l] using rev_ind; [by apply elem_of_nil in Hin|].
  rewrite last_snoc. by eexists.
Qed.

End WithLibs.

(** C5, on the code: when an invocation is recorded and no message carries
    its identifier as [tool_call_id], the loop of [answer] leaves the
    placeholder [[]] in the entry, and [answer] then does not return: the
    formatting of the trace raises. *)
Theorem answer_unanswered_call_raises (lib : Libs) (messages : list Message)
    (id : string) :
  (∃ m, m ∈ messages ∧ records id m) →
  (∀ m, m ∈ messages → msg_tool_call_id m ≠ Some id) →
  (∀ d, collect messages [] = Ok d →
        ∃ call, dict_get id d = Some call ∧ result call = PList []) ∧
  ∃ e, answer_of_messages lib messages = Raise e.
Proof.
  intros Hrec Hno.
  assert (∀ d, collect messages [] = Ok d → pending id d) as Hp.
  { intros d. apply collect_pending; [done|by right]. }
  split; [exact Hp|].
  unfold answer_of_messages. destruct Hrec as (m & Hin & _).
  destruct (last_elem_of messages m Hin) as (lm & ->). unfold rbind.
  destruct (collect messages []) as [d|e] eqn:Hc; [|by eexists].
  specialize (Hp d eq_refl).
  destruct (format_tool_details_pending lib id d Hp) as (e & He).
  destruct d as [|kv d]; [by destruct Hp as (? & ? & _)|].
  rewrite He. by eexists.
Qed.

Lemma answer_unanswered_call_raises_witness :
  (∀ d, collect unanswered_turn [] = Ok d →
        ∃ call, dict_get "call_1" d = Some call ∧ result call = PList []) ∧
  ∃ e, answer_of_messages sample_libs unanswered_turn = Raise e.
Proof.
  apply (answer_unanswered_call_raises sample_libs unanswered_turn "call_1").
  - exists (ai "" [call_1]). split.
    + apply elem_of_cons. right. apply elem_of_cons. by left.
    + exists [call_1], call_1. split; [reflexivity|]. split; [|reflexivity].
      apply elem_of_cons. by left.
  - intros m Hin. repeat (apply elem_of_cons in Hin as [->|Hin]; [discriminate|]).
    by apply elem_of_nil in Hin.
Defined.

(** The failing turn, evaluated: whatever [json] and [pandas] do, the
    unanswered invocation makes [answer] raise a [TypeError]. *)
Example answer_unanswered_turn (lib : Libs) :
  collect unanswered_turn [] =
    Ok [("call_1", {| name := "retrieve"; args := tc_args call_1; result := PList [] |})] ∧
  answer_of_messages lib unanswered_turn =
    Raise (TypeError "the JSON object must be str, bytes or bytearray, not list").
Proof. split; reflexivity. Qed.

Lemma collect_unknown_id id messages : ∀ d,
  id ≠ "" →
  dict_get id d = None →
  (∀ m, m ∈ messages → ¬ records id m) →
  (∃ m, m ∈ messages ∧ msg_tool_call_id m = Some id) →
  ∃ k, collect messages d = Raise (KeyError k).
Proof.
  intros d Hid. revert d.
  induction messages as [|msg rest IH]; intros d Hd Hno (m & Hin & Hm).
  { by apply elem_of_nil in Hin. }
  simpl. set (d1 := record_calls (default [] (msg_tool_calls msg)) d).
  assert (dict_get id d1 = None) as Hd1.
  { apply record_calls_absent; [done|]. intros tc Htc Heq.
    apply (Hno msg); [apply elem_of_cons; by left|].
    destruct (msg_tool_calls msg) as [tcs|] eqn:Htcs; [|by apply elem_of_nil in Htc].
    by exists tcs, tc. }
  assert (∀ m', m' ∈ rest → ¬ records id m') as Hno'.
  { intros m' Hin'. apply Hno. apply elem_of_cons. by right. }
  unfold rbind, merge_result.
  destruct (msg_tool_call_id msg) as [id'|] eqn:Hmsg.
  - destruct (decide (id' = "")) as [->|Hne].
    + apply IH; [done..|]. exists m. split; [|done].
      apply elem_of_cons in Hin as [->|Hin]; [congruence|done].
    + destruct (dict_get id' d1) as [call|] eqn:Hget; [|by eexists].
      assert (id ≠ id') as Hneq by congruence.
      apply IH; [by rewrite dict_get_set_ne|done|].
      exists m. split; [|done].
      apply elem_of_cons in Hin as [->|Hin]; [congruence|done].
  - apply IH; [done..|]. exists m. split; [|done].
    apply elem_of_cons in Hin as [->|Hin]; [congruence|done].
Qed.

(** C10: when the history holds a tool-result message (one with a non-empty
    [tool_call_id]) whose identifier no message records as an invocation,
    [answer] raises a [KeyError] from the lookup in the correlation map. *)
Theorem answer_unknown_id_raises (lib : Libs) (messages : list Message)
    (m : Message) (id : string) :
  m ∈ messages →
  msg_tool_call_id m = Some id →
  id ≠ "" →
  (∀ m', m' ∈ messages → ¬ records id m') →
  ∃ k, answer_of_messages lib messages = Raise (KeyError k).
Proof.
  intros Hin Hm Hid Hno. unfold answer_of_messages.
  destruct (last_elem_of messages m Hin) as (lm & ->).
  destruct (collect_unknown_id id messages [] Hid eq_refl Hno) as (k & ->).
  - by exists m.
  - by exists k.
Qed.

Lemma answer_unknown_id_raises_witness :
  ∃ k, answer_of_messages sample_libs orphan_turn = Raise (KeyError k).
Proof.
  apply (answer_unknown_id_raises sample_libs orphan_turn
           (tool_message "call_9" "{}") "call_9").
  - apply elem_of_cons. right. apply elem_of_cons. right. apply elem_of_cons. by left.
  - reflexivity.
  - discriminate.
  - intros m' Hin (tcs & tc & Htcs & Htc & Heq).
    repeat (apply elem_of_cons in Hin as [->|Hin];
            [simpl in Htcs; try discriminate; injection Htcs as <-|]).
    + apply elem_of_cons in Htc as [->|Htc]; [discriminate|by apply elem_of_nil in Htc].
    + by apply elem_of_nil in Htc.
    + by apply elem_of_nil in Hin.
Defined.

Example answer_orphan_turn (lib : Libs) :
  answer_of_messages lib orphan_turn = Raise (KeyError "call_9").
Proof. reflexivity. Qed.

End AgentFacts.

(** ** Properties of the chat UI *)
Module AppFacts.
Import App Samples.

(** C4, as the code has it: when [Agent.answer] raises on a turn, the UI
    shows the error banner and appends no assistant message; the user
    message, appended before the agent is called, stays in the transcript. *)
Theorem run_answer_raises (agent_answer : string → Result Agent.Response)
    (history : list ChatMessage) (text : string) (e : Exn) :
  text ≠ "" →
  agent_answer text = Raise e →
  let page := run agent_answer history (Some text) in
  messages page = history ++ [user_message text] ∧
  widgets page = render_history history ++
                 [Markdown "user" (PStr text);
                  ErrorBanner ("An error occurred: " +:+ exn_str e)] ∧
  ending page = Finished.
Proof.
  intros Htext Hraise. unfold run. rewrite decide_False by done. rewrite Hraise.
  simpl. rewrite <- app_assoc. done.
Qed.

Lemma run_answer_raises_witness :
  let page := run (Agent.answer sample_libs failing_framework) [] (Some "Total sales?") in
  messages page = [] ++ [user_message "Total sales?"] ∧
  widgets page = render_history [] ++
                 [Markdown "user" (PStr "Total sales?");
                  ErrorBanner ("An error occurred: " +:+
                     exn_str (ExternalError "APIConnectionError" "Connection error."))] ∧
  ending page = Finished.
Proof.
  apply (run_answer_raises (Agent.answer sample_libs failing_framework) []
           "Total sales?" (ExternalError "APIConnectionError" "Connection error.")).
  - discriminate.
  - reflexivity.
Defined.

(** C4 as stated fails: the agent raises on this turn, the error is shown,
    and yet the transcript, empty before, now holds the user message. *)
Lemma run_keeps_user_message :
  Agent.answer sample_libs failing_framework "Total sales?" =
    Raise (ExternalError "APIConnectionError" "Connection error.") ∧
  messages (run (Agent.answer sample_libs failing_framework) [] (Some "Total sales?")) =
    [user_message "Total sales?"] ∧
  messages (run (Agent.answer sample_libs failing_framework) [] (Some "Total sales?")) ≠ [].
Proof. split; [reflexivity|]. split; [reflexivity|discriminate]. Qed.

(** A turn on which the agent answers: both messages are appended and the
    script reruns. *)
Example run_answered_turn :
  let page := run (λ _, Ok {| Agent.answer_text := PStr "42"; Agent.tools := None |})
                  [] (Some "Total sales?") in
  messages page = [user_message "Total sales?";
                   {| role := "assistant"; content := PStr "42"; trace := None |}] ∧
  ending page = Rerun.
Proof. split; reflexivity. Qed.

End AppFacts.

(** ** Properties of the data-setup script *)
Module SetupDataFacts.
Import SetupData Samples.
Local Open Scope setup_scope.

Lemma sbind_returned {A B} (m : Script A) (k : A → Script B) w b w' :
  sbind m k w = (Returned b, w') →
  ∃ a w1, m w = (Returned a, w1) ∧ k a w1 = (Returned b, w').
Proof.
  unfold sbind. destruct (m w) as [[a|e] w1]; [|done].
  intros H. by exists a, w1.
Qed.

Lemma returns_sret {A} (a : A) : returns (sret a).
Proof. intros w. by exists a, w. Qed.

Lemma returns_sbind {A B} (m : Script A) (k : A → Script B) :
  returns m → (∀ a, returns (k a)) → returns (sbind m k).
Proof.
  intros Hm Hk w. unfold sbind. destruct (Hm w) as (a & w1 & ->). apply Hk.
Qed.

Lemma returns_print text : returns (print text).
Proof. intros w. by eexists _, _. Qed.

Lemma returns_perform {A} (act : list Action → Action) (r : list Action → Result A) :
  (∀ w, is_ok (r w) = true) → returns (λ w, perform (act w) (r w) w).
Proof.
  intros Hok w. specialize (Hok w). unfold perform.
  destruct (r w) as [a|e]; [|done]. by eexists _, _.
Qed.

Lemma returns_sfor {A} (f : A → Script unit) l :
  (∀ x, returns (f x)) → returns (sfor f l).
Proof.
  intros Hf. induction l as [|x rest IH]; simpl; [apply returns_sret|].
  apply returns_sbind; [apply Hf|]. intros _. apply IH.
Qed.

Lemma returns_sfold {A B} (f : B → A → Script B) l : ∀ acc,
  (∀ acc x, returns (f acc x)) → returns (sfold f acc l).
Proof.
  induction l as [|x rest IH]; intros acc Hf; simpl; [apply returns_sret|].
  apply returns_sbind; [apply Hf|]. intros acc'. by apply IH.
Qed.

Lemma sql_steps_returns host : cooperative host → returns (sql_steps host).
Proof.
  intros (_ & _ & _ & Hcon & Hex). unfold sql_steps.
  apply returns_sbind; [apply returns_print|]. intros _.
  apply returns_sbind; [apply (returns_perform (λ _, DbConnect)), Hcon|]. intros _.
  apply returns_sbind.
  { apply returns_sfor. intros csv. unfold load_csv.
    apply returns_sbind; [apply returns_print|]. intros _.
    apply returns_sbind; [|intros; apply returns_sret].
    apply (returns_perform (λ _, DbExecute _) (λ w, db_execute host w _)). intros w. apply Hex. }
  intros _.
  apply returns_sbind.
  { apply (returns_perform (λ _, DbExecute _) (λ w, db_execute host w _)). intros w. apply Hex. }
  intros tables.
  apply returns_sbind; [apply returns_print|]. intros _.
  apply returns_sbind; [|intros; apply returns_print].
  intros w. by eexists _, _.
Qed.

Lemma setup_rag_db_returns host : cooperative host → returns (setup_rag_db host).
Proof.
  intros (Hpdf & Hsplit & Hidx & _ & _). unfold setup_rag_db.
  apply returns_sbind.
  { apply returns_sfold. intros acc folder. unfold load_folder.
    apply returns_sbind; [apply returns_print|]. intros _.
    apply returns_sfold. intros acc' doc. unfold load_document.
    apply returns_sbind; [apply returns_print|]. intros _.
    apply returns_sbind; [|intros; apply returns_sret].
    apply (returns_perform (λ _, LoadPdf _) (λ w, load_pdf host w _)). intros w. apply Hpdf. }
  intros documents.
  apply returns_sbind.
  { intros w. specialize (Hsplit documents).
    destruct (split_documents host documents); [|done]. by eexists _, _. }
  intros chunks.
  apply returns_sbind; [apply returns_print|]. intros _.
  apply returns_sbind; [|intros; apply returns_print].
  apply (returns_perform (λ _, BuildIndex _) (λ w, from_documents host w _)). intros w. apply Hidx.
Qed.

(** On a host where every step succeeds the recursion goes on until the
    call that no longer fits under the recursion limit. *)
Lemma setup_sql_db_hits_limit host :
  cooperative host → ∀ frames w, (setup_sql_db host frames w).1 = Raised recursion_error.
Proof.
  intros Hok. induction frames as [|frames IH]; intros w; [done|].
  simpl. unfold sbind.
  destruct (sql_steps_returns host Hok w) as ([] & w1 & ->).
  destruct (setup_rag_db_returns host Hok w1) as ([] & w2 & ->).
  apply IH.
Qed.

Lemma setup_sql_db_raises host : ∀ frames w,
  ∃ e w', setup_sql_db host frames w = (Raised e, w').
Proof.
  induction frames as [|frames IH]; intros w; [by eexists _, _|].
  simpl. unfold sbind.
  destruct (sql_steps host w) as [[[]|e] w1]; [|by eexists _, _].
  destruct (setup_rag_db host w1) as [[[]|e] w2]; [|by eexists _, _].
  apply IH.
Qed.

Example setup_sql_db_sample_rounds :
  let run := setup_sql_db sample_host 3 [] in
  run.1 = Raised recursion_error ∧
  printed "Setting up DuckDB..." run.2 = 3 ∧
  printed "Vectorstore created with 1 documents" run.2 = 3.
Proof. vm_compute. done. Qed.

(** C3, as the code has it: the calls [setup_rag_db()] and [setup_sql_db()]
    belong to the body of [setup_sql_db], after the CSV loop and the closing
    of the connection, and the module level calls nothing; hence a call of
    [setup_sql_db] runs its steps, then [setup_rag_db], then itself again.
    It never returns normally, and it does terminate: every call ends by
    raising, with the exception of one of its steps or, when every step
    succeeds, with the [RecursionError] of the recursion limit. *)
Theorem setup_sql_db_never_returns (host : Host) :
  (∀ frames, setup_sql_db host (S frames) =
             (sql_steps host ;;; setup_rag_db host ;;; setup_sql_db host frames)) ∧
  (∀ w, module_level w = (Returned tt, w)) ∧
  (∀ frames w, ∃ e w', setup_sql_db host frames w = (Raised e, w')) ∧
  (cooperative host →
   ∀ frames w, (setup_sql_db host frames w).1 = Raised recursion_error).
Proof.
  split; [done|]. split; [done|].
  split; [apply setup_sql_db_raises|apply setup_sql_db_hits_limit].
Qed.

Lemma setup_sql_db_never_returns_witness :
  (setup_sql_db sample_host 3 []).1 = Raised recursion_error.
Proof.
  apply (setup_sql_db_never_returns sample_host).
  repeat split; try done. intros w sql. simpl. by destruct (decide (sql = "SHOW TABLES")).
Defined.

(** C3 as stated fails: the call does terminate.  With room for ten nested
    calls under the recursion limit, it runs ten rounds and then ends in
    [RecursionError]. *)
Lemma setup_sql_db_terminates :
  let run := setup_sql_db sample_host 10 [] in
  run.1 = Raised (RecursionError "maximum recursion depth exceeded") ∧
  printed "DuckDB setup complete." run.2 = 10.
Proof. vm_compute. done. Qed.

End SetupDataFacts.

(** ** Further properties of retrieve *)
Module RetrieveFacts.
Import Tools Samples.

Lemma dedup_loop_acc docs : ∀ acc seen,
  dedup_loop docs acc seen = acc ++ dedup_loop docs [] seen.
Proof.
  induction docs as [|doc rest IH]; intros acc seen; simpl.
  - by rewrite app_nil_r.
  - case_decide; [apply IH|].
    rewrite (IH (acc ++ [doc])), (IH [doc]). by rewrite <- app_assoc.
Qed.

Lemma dedup_loop_sublist docs : ∀ seen, dedup_loop docs [] seen `sublist_of` docs.
Proof.
  induction docs as [|doc rest IH]; intros seen; simpl; [done|].
  case_decide.
  - apply sublist_cons, IH.
  - rewrite dedup_loop_acc. simpl. apply sublist_skip, IH.
Qed.

Lemma dedup_loop_distinct docs : ∀ seen,
  NoDup (page_content <$> docs) →
  (∀ t, t ∈ seen → t ∉ page_content <$> docs) →
  dedup_loop docs [] seen = docs.
Proof.
  induction docs as [|doc rest IH]; intros seen Hnd Hseen; simpl; [done|].
  rewrite fmap_cons in Hnd. apply NoDup_cons in Hnd as [Hnotin Hnd].
  rewrite decide_False.
  - rewrite dedup_loop_acc. simpl. f_equal. apply IH; [done|].
    intros t Ht. apply elem_of_union in Ht as [Ht|Ht].
    + apply elem_of_singleton in Ht as ->. done.
    + intros Hin. apply (Hseen t Ht). rewrite fmap_cons. apply elem_of_cons. by right.
  - intros Hin. apply (Hseen _ Hin). rewrite fmap_cons. apply elem_of_cons. by left.
Qed.

Lemma dedup_loop_not_seen docs : ∀ seen d,
  d ∈ dedup_loop docs [] seen → page_content d ∉ seen.
Proof.
  induction docs as [|doc rest IH]; intros seen d; simpl.
  - intros Hin. by apply elem_of_nil in Hin.
  - case_decide as Hseen; [apply IH|].
    rewrite dedup_loop_acc. simpl. intros Hin. apply elem_of_cons in Hin as [->|Hin]; [done|].
    apply IH in Hin. intros Hs. apply Hin. apply elem_of_union. by right.
Qed.

Lemma dedup_loop_first docs : ∀ seen d,
  d ∈ dedup_loop docs [] seen →
  ∃ pre post, docs = pre ++ d :: post ∧ page_content d ∉ page_content <$> pre.
Proof.
  induction docs as [|doc rest IH]; intros seen d; simpl.
  - intros Hin. by apply elem_of_nil in Hin.
  - case_decide as Hseen.
    + intros Hin. pose proof (dedup_loop_not_seen _ _ _ Hin) as Hns.
      destruct (IH _ _ Hin) as (pre & post & -> & Hpre).
      exists (doc :: pre), post. split; [done|].
      rewrite fmap_cons. intros Hin'. apply elem_of_cons in Hin' as [Heq|?]; [|done].
      apply Hns. by rewrite Heq.
    + rewrite dedup_loop_acc. simpl. intros Hin. apply elem_of_cons in Hin as [->|Hin].
      * exists [], rest. split; [done|]. simpl. apply not_elem_of_nil.
      * pose proof (dedup_loop_not_seen _ _ _ Hin) as Hns.
        destruct (IH _ _ Hin) as (pre & post & -> & Hpre).
        exists (doc :: pre), post. split; [done|].
        rewrite fmap_cons. intros Hin'. apply elem_of_cons in Hin' as [Heq|?]; [|done].
        apply Hns. apply elem_of_union. left. by apply elem_of_singleton.
Qed.

(** X1: the deduplication keeps the passages in the order of the index and
    keeps, of passages with equal text, the first: a kept passage stands in
    the input with no passage of the same text before it. *)
Theorem unique_docs_first_occurrence (docs : list Document) :
  unique_docs_of docs `sublist_of` docs ∧
  ∀ d, d ∈ unique_docs_of docs →
    ∃ pre post, docs = pre ++ d :: post ∧ page_content d ∉ page_content <$> pre.
Proof.
  split; [apply dedup_loop_sublist|]. intros d. apply dedup_loop_first.
Qed.

(** X2: passages whose texts are pairwise distinct are all kept, in order;
    the context then joins all of them. *)
Theorem unique_docs_distinct (docs : list Document) :
  NoDup (page_content <$> docs) →
  unique_docs_of docs = docs ∧
  context_of docs = join (nl +:+ nl) (page_content <$> docs).
Proof.
  intros Hnd.
  assert (unique_docs_of docs = docs) as Heq.
  { apply dedup_loop_distinct; [done|]. intros t Ht. by apply elem_of_empty in Ht. }
  split; [done|]. unfold context_of, context_passages. by rewrite Heq.
Qed.

Lemma unique_docs_distinct_witness :
  unique_docs_of [doc_a; doc_c] = [doc_a; doc_c] ∧
  context_of [doc_a; doc_c] = join (nl +:+ nl) (page_content <$> [doc_a; doc_c]).
Proof.
  apply (unique_docs_distinct [doc_a; doc_c]).
  apply NoDup_cons. split.
  - intros Hin. apply list_elem_of_singleton in Hin. discriminate.
  - apply NoDup_singleton.
Defined.

(** X3: deduplicating twice changes nothing more: what [retrieve] builds
    from its kept passages is what it builds from the passages themselves. *)
Theorem unique_docs_idempotent (docs : list Document) :
  unique_docs_of (unique_docs_of docs) = unique_docs_of docs ∧
  retrieve_result (unique_docs_of docs) = retrieve_result docs.
Proof.
  assert (unique_docs_of (unique_docs_of docs) = unique_docs_of docs) as Heq.
  { apply dedup_loop_distinct.
    - apply (ToolsFacts.unique_docs_spec docs).
    - intros t Ht. by apply elem_of_empty in Ht. }
  split; [done|].
  unfold retrieve_result, context_of, context_passages, sources_of. by rewrite Heq.
Qed.

(** X4: the sources list is never longer than the list of passages joined
    into the context, and it is empty exactly when no passage was returned. *)
Theorem sources_no_more_than_passages (docs : list Document) :
  List.length (sources_of docs) ≤ List.length (context_passages docs) ∧
  (sources_of docs = [] ↔ docs = []).
Proof.
  split.
  - unfold context_passages. rewrite length_fmap. apply ToolsFacts.sources_of_length.
  - split.
    + intros Hnil. destruct docs as [|d rest]; [done|]. exfalso.
      assert (source_of d ∈ sources_of (d :: rest)) as Hin.
      { apply ToolsFacts.elem_of_sources_of. exists d. split; [|done].
        unfold unique_docs_of. simpl. rewrite decide_False by apply not_elem_of_empty.
        rewrite dedup_loop_acc. apply elem_of_app. left. by apply list_elem_of_singleton. }
      rewrite Hnil in Hin. by apply elem_of_nil in Hin.
    + intros ->. reflexivity.
Qed.

(** X5: when the index returns no passage for the category, [retrieve]
    returns an empty context and an empty sources list, not an error. *)
Theorem retrieve_nothing_found (ix : VectorIndex) (question doc_type : string) :
  vs_invoke ix question 3 doc_type = Ok [] →
  retrieve ix question doc_type = Ok (PDict [("context", PStr ""); ("sources", PList [])]).
Proof. intros H. unfold retrieve. rewrite H. reflexivity. Qed.

Lemma retrieve_nothing_found_witness :
  retrieve {| vs_invoke := λ _ _ _, Ok [] |} "engine?" "user_manuals" =
    Ok (PDict [("context", PStr ""); ("sources", PList [])]).
Proof.
  apply (retrieve_nothing_found {| vs_invoke := λ _ _ _, Ok [] |} "engine?" "user_manuals").
  reflexivity.
Defined.

End RetrieveFacts.

(** ** Further properties of get_schema, generate_sql and run_sql *)
Module SqlFacts.
Import Tools Samples.
Local Open Scope py_scope.

(** A name the store lists: the first cell of a row it returned for
    [SHOW TABLES]. *)
Definition listed (db : Duck) (table : Cell) : Prop :=
  ∃ w0 t row, duck_execute db w0 "SHOW TABLES" = Ok t ∧
              row ∈ tuples t ∧ row !! 0 = Some table.

(** A column the store describes for a table: the first cell of a row it
    returned for [DESCRIBE] of that table. *)
Definition described (db : Duck) (table col : Cell) : Prop :=
  ∃ w0 t row, duck_execute db w0 ("DESCRIBE " +:+ cell_str table) = Ok t ∧
              row ∈ tuples t ∧ row !! 0 = Some col.

(** The texts of schema introspection: the names are inserted as the store
    gave them, without quoting. *)
Definition is_introspection (db : Duck) (sql : string) : Prop :=
  sql = "SHOW TABLES" ∨
  (∃ table, listed db table ∧ sql = "DESCRIBE " +:+ cell_str table) ∨
  (∃ table col, listed db table ∧ described db table col ∧
     sql = "SELECT DISTINCT " +:+ cell_str col +:+ " FROM " +:+ cell_str table
           +:+ " LIMIT 50").

Definition introspects (db : Duck) (e : Event) : Prop :=
  match e with
  | Execute _ sql => is_introspection db sql
  | _ => True
  end.

(** A computation that appends only events satisfying [P] and whose value,
    when it returns one, satisfies [Q]. *)
Definition emits {A} (P : Event → Prop) (Q : A → Prop) (m : M A) : Prop :=
  ∀ w, ∃ evs, (m w).2 = w ++ evs ∧ Forall P evs ∧ ∀ a, (m w).1 = Ok a → Q a.

(** A store whose catalog lists a name that holds a second statement. *)
Definition hostile_duck : Duck :=
  {| duck_connect := λ _, None;
     duck_execute := λ _ sql,
       if decide (sql = "SHOW TABLES") then
         Ok (table_of ["name"] [[CText "t; DROP TABLE sales"]])
       else Ok (table_of ["column_name"; "column_type"] []) |}.

Lemma emits_pure {A} P (Q : A → Prop) (r : Result A) :
  (∀ a, r = Ok a → Q a) → emits P Q (lift r).
Proof. intros HQ w. exists []. simpl. rewrite app_nil_r. by repeat split. Qed.

Lemma emits_ret {A} P (Q : A → Prop) (a : A) : Q a → emits P Q (ret a).
Proof.
  intros HQ w. exists []. simpl. rewrite app_nil_r. repeat split; [done|].
  by intros a' [= <-].
Qed.

Lemma emits_bind {A B} P (Q : A → Prop) (R : B → Prop) (m : M A) (k : A → M B) :
  emits P Q m → (∀ a, Q a → emits P R (k a)) → emits P R (bind m k).
Proof.
  intros Hm Hk w. unfold bind. destruct (Hm w) as (evs & Hw & Hevs & HQ).
  destruct (m w) as [[a|e] w1]; simpl in Hw, HQ; subst w1.
  - destruct (Hk a (HQ a eq_refl) (w ++ evs)) as (evs' & Hw' & Hevs' & HR).
    exists (evs ++ evs'). rewrite Hw', app_assoc. split; [done|].
    split; [by apply Forall_app|done].
  - exists evs. by repeat split.
Qed.

Lemma emits_for_each {A B} P (f : A → M B) l :
  (∀ a, a ∈ l → emits P (λ _, True) (f a)) → emits P (λ _, True) (for_each f l).
Proof.
  induction l as [|x rest IH]; intros Hf; simpl; [by apply emits_ret|].
  apply (emits_bind P (λ _, True)); [apply Hf, elem_of_cons; by left|]. intros y _.
  apply (emits_bind P (λ _, True)); [|intros; by apply emits_ret].
  apply IH. intros a Ha. apply Hf, elem_of_cons. by right.
Qed.

Lemma emits_fetchall db (P : Event → Prop) c sql :
  P (Execute c sql) →
  emits P (λ rows, ∃ w0 t, duck_execute db w0 sql = Ok t ∧ rows = tuples t)
        (fetchall db c sql).
Proof.
  intros HP w. exists [Execute c sql]. unfold fetchall, bind, execute, ret.
  destruct (duck_execute db w sql) as [t|e] eqn:Hex; simpl.
  - split; [done|]. split; [by apply Forall_singleton|].
    intros rows [= <-]. by exists w, t.
  - split; [done|]. split; [by apply Forall_singleton|done].
Qed.

Lemma tuple_get_Some row i v : tuple_get row i = Ok v → row !! i = Some v.
Proof. unfold tuple_get. destruct (row !! i); [by intros [= ->]|done]. Qed.

Lemma describe_column_introspects db c table col :
  listed db table → (∃ w0 t, duck_execute db w0 ("DESCRIBE " +:+ cell_str table) = Ok t ∧
                             col ∈ tuples t) →
  emits (introspects db) (λ _, True) (describe_column db c table col).
Proof.
  intros Hlisted (w0 & t & Hdesc & Hcol). unfold describe_column.
  apply (emits_bind _ (λ col_name, col !! 0 = Some col_name));
    [apply emits_pure, tuple_get_Some|]. intros col_name Hname.
  apply (emits_bind _ (λ _, True)); [by apply emits_pure|]. intros col_type _.
  apply (emits_bind _ (λ _, True)); [by apply emits_pure|]. intros dim _.
  apply (emits_bind _ (λ _, True)); [|intros; by apply emits_ret].
  destruct (dim && is_text_type col_type); [|by apply emits_ret].
  eapply emits_bind.
  { apply emits_fetchall.
    right. right. exists table, col_name. split; [done|]. split; [|done].
    by exists w0, t, col. }
  intros values _.
  apply (emits_bind _ (λ _, True)); [|intros; by apply emits_ret].
  apply emits_for_each. intros v _.
  apply (emits_bind _ (λ _, True)); [by apply emits_pure|]. intros; by apply emits_ret.
Qed.

Lemma describe_table_introspects db c table :
  (∃ w0 t, duck_execute db w0 "SHOW TABLES" = Ok t ∧ table ∈ tuples t) →
  emits (introspects db) (λ _, True) (describe_table db c table).
Proof.
  intros (w0 & t & Hshow & Htable). unfold describe_table.
  apply (emits_bind _ (λ table_name, listed db table_name)).
  { apply emits_pure. intros name Hname. exists w0, t, table.
    split; [done|]. split; [done|]. by apply tuple_get_Some. }
  intros table_name Hlisted.
  eapply emits_bind.
  { apply emits_fetchall. right. left. by exists table_name. }
  intros cols (w1 & t1 & Hdesc & ->).
  apply (emits_bind _ (λ _, True)); [|intros; by apply emits_ret].
  apply emits_for_each. intros col Hcol.
  apply describe_column_introspects; [done|]. by exists w1, t1.
Qed.

Lemma get_schema_introspects db : emits (introspects db) (λ _, True) (get_schema db).
Proof.
  unfold get_schema. apply (emits_bind _ (λ _, True)).
  { intros w. unfold connect. destruct (duck_connect db w).
    - exists []. simpl. rewrite app_nil_r. by repeat split.
    - exists [Connect (List.length w)]. split; [done|]. split; [|done].
      by apply Forall_singleton. }
  intros con _. eapply emits_bind; [apply emits_fetchall; by left|].
  intros tables (w0 & t & Hshow & ->).
  apply (emits_bind _ (λ _, True)).
  { apply emits_for_each. intros table Htable. apply describe_table_introspects.
    by exists w0, t. }
  intros info _. apply (emits_bind _ (λ _, True)); [|intros; by apply emits_ret].
  intros w. exists [Close con]. split; [done|]. split; [|done]. by apply Forall_singleton.
Qed.

(** X6: whatever the store holds and however the call ends, every text that
    [get_schema] executes is [SHOW TABLES], or [DESCRIBE] followed by a name
    that the store listed for [SHOW TABLES], or [SELECT DISTINCT c FROM t
    LIMIT 50] for such a name [t] and a column [c] that the store described
    for [t].  The names are inserted as the store gave them. *)
Theorem get_schema_only_introspects (db : Duck) (w : World) (c : nat) (sql : string) :
  Execute c sql ∈ drop (List.length w) (get_schema db w).2 → is_introspection db sql.
Proof.
  destruct (get_schema_introspects db w) as (evs & -> & Hevs & _).
  rewrite drop_app_length. intros Hin.
  rewrite Forall_forall in Hevs. apply (Hevs _ Hin).
Qed.

Lemma get_schema_only_introspects_witness :
  is_introspection sample_duck "SELECT DISTINCT model FROM DIM_MODEL LIMIT 50".
Proof.
  apply (get_schema_only_introspects sample_duck [] 0).
  vm_compute. apply elem_of_cons. right. apply elem_of_cons. right.
  apply elem_of_cons. right. apply elem_of_cons. by left.
Defined.

(** A listed name is not quoted: when it holds a second statement, that
    statement is part of the text sent to the store. *)
Example get_schema_splices_names :
  (get_schema hostile_duck []).2 =
    [Connect 0; Execute 0 "SHOW TABLES"; Execute 0 "DESCRIBE t; DROP TABLE sales"; Close 0].
Proof. vm_compute. reflexivity. Qed.

Lemma prefix_append (s t : string) : String.prefix s (s +:+ t) = true.
Proof.
  induction s as [|a s IH]; simpl; [by destruct t|].
  destruct (Ascii.ascii_dec a a); [apply IH|done].
Qed.

(** X7: [con.close()] of [get_schema] is not in a [finally]: when a
    statement raises after the connection was opened, [get_schema] raises
    and leaves that connection open. *)
Theorem get_schema_failure_leaves_open (db : Duck) (w w' : World) (e : Exn) :
  duck_connect db w = None →
  get_schema db w = (Raise e, w') →
  ∃ evs, w' = w ++ Connect (List.length w) :: evs ∧
         Forall (is_execute (List.length w)) evs ∧
         still_open (drop (List.length w) w') = [List.length w].
Proof.
  intros Hcon. unfold get_schema, bind at 1, connect. rewrite Hcon.
  set (c := List.length w). set (w1 := w ++ [Connect c]). intros H.
  assert (∃ evs, w' = w1 ++ evs ∧ Forall (is_execute c) evs) as (evs & -> & Hevs).
  { unfold bind at 1 in H.
    destruct (ToolsFacts.execs_only_fetchall db c "SHOW TABLES" w1) as (evs1 & Hw1 & He1).
    destruct (fetchall db c "SHOW TABLES" w1) as [[tables|e1] w2]; simpl in Hw1; subst w2;
      [|injection H as _ <-; by exists evs1].
    unfold bind at 1 in H.
    destruct (ToolsFacts.execs_only_for_each c (describe_table db c) tables
                (ToolsFacts.execs_only_describe_table db c) (w1 ++ evs1))
      as (evs2 & Hw2 & He2).
    destruct (for_each (describe_table db c) tables (w1 ++ evs1)) as [[info|e2] w3];
      simpl in Hw2; subst w3; [done|].
    injection H as _ <-. exists (evs1 ++ evs2). rewrite app_assoc. split; [done|].
    by apply Forall_app. }
  exists evs. unfold w1. rewrite <- app_assoc. split; [done|]. split; [done|].
  assert (∀ l : list Event, drop c (w ++ l) = l) as Hdrop
    by (intros l; apply drop_app_length).
  rewrite Hdrop.
  assert (connects evs = [] ∧ closes evs = []) as [Hc1 Hc2].
  { clear -Hevs. induction Hevs as [|x l [sql' ->] _ [IH1 IH2]]; [done|]. by split. }
  unfold still_open. simpl. fold (connects evs) (closes evs). rewrite Hc1, Hc2.
  rewrite filter_cons_True; [done|]. apply not_elem_of_nil.
Qed.

Lemma get_schema_failure_leaves_open_witness :
  ∃ evs, [Connect 0; Execute 0 "SHOW TABLES"; Execute 0 "DESCRIBE my table"] =
           [] ++ Connect (List.length ([] : World)) :: evs ∧
         Forall (is_execute (List.length ([] : World))) evs ∧
         still_open (drop (List.length ([] : World))
           [Connect 0; Execute 0 "SHOW TABLES"; Execute 0 "DESCRIBE my table"]) =
           [List.length ([] : World)].
Proof.
  apply (get_schema_failure_leaves_open broken_duck [] _
           (ExternalError "ParserException" "syntax error at or near table")).
  - reflexivity.
  - vm_compute. reflexivity.
Defined.

Lemma run_sql_returns_iff_aux db llm question w :
  is_ok (run_sql db llm question w).1 = true →
  ∃ sql w1, generate_sql db llm question w = (Ok sql, w1) ∧ duck_connect db w1 = None.
Proof.
  intros H.
  destruct (generate_sql db llm question w) as [[sql|e] w1] eqn:Hgen;
    [|unfold run_sql, bind at 1 in H; by rewrite Hgen in H].
  destruct (duck_connect db w1) as [e|] eqn:Hcon; [|by exists sql, w1].
  unfold run_sql, bind at 1 in H. rewrite Hgen in H.
  unfold bind at 1, connect in H. by rewrite Hcon in H.
Qed.

(** X8: [run_sql] returns a value exactly when SQL generation succeeds and
    the connection for the statement can be opened; a failure of the
    statement itself never makes it raise. *)
Theorem run_sql_returns_iff (db : Duck) (llm : ChatModel) (question : string) (w : World) :
  is_ok (run_sql db llm question w).1 = true ↔
  ∃ sql w1, generate_sql db llm question w = (Ok sql, w1) ∧ duck_connect db w1 = None.
Proof.
  split; [apply run_sql_returns_iff_aux|].
  intros (sql & w1 & Hgen & Hcon).
  rewrite (ToolsFacts.run_sql_after_generate db llm question w sql w1 Hgen Hcon).
  cbv zeta. by destruct (duck_execute db _ sql).
Qed.

(** X9: the [try] of [run_sql] covers the execution only: when the chat
    model fails during SQL generation, [run_sql] raises that failure, and
    no connection is opened for a statement. *)
Theorem run_sql_model_failure (db : Duck) (llm : ChatModel) (question : string)
    (w w1 : World) (schema : string) (e : Exn) :
  get_schema db w = (Ok schema, w1) →
  llm_invoke llm (prompt_head +:+ schema +:+ prompt_middle +:+ question +:+ prompt_tail)
    = Raise e →
  run_sql db llm question w = (Raise e, w1).
Proof.
  intros Hs Hllm. unfold run_sql, bind at 1, generate_sql, bind at 1.
  rewrite Hs. unfold lift. by rewrite Hllm.
Qed.

Lemma run_sql_model_failure_witness :
  run_sql empty_duck {| llm_invoke := λ _, Raise (ExternalError "RateLimitError" "429") |}
          "Total sales?" [] =
    (Raise (ExternalError "RateLimitError" "429"),
     [Connect 0; Execute 0 "SHOW TABLES"; Close 0]).
Proof.
  apply (run_sql_model_failure empty_duck
           {| llm_invoke := λ _, Raise (ExternalError "RateLimitError" "429") |}
           "Total sales?" [] [Connect 0; Execute 0 "SHOW TABLES"; Close 0] "").
  - vm_compute. reflexivity.
  - reflexivity.
Defined.

(** X10: the text returned by the chat model is executed as it is: whatever
    statement the model answers with, [run_sql] sends exactly that text to
    the store, on the connection it opens for it. *)
Theorem run_sql_executes_model_text (db : Duck) (llm : ChatModel) (question : string)
    (w w1 : World) (schema sql : string) :
  get_schema db w = (Ok schema, w1) →
  llm_invoke llm (prompt_head +:+ schema +:+ prompt_middle +:+ question +:+ prompt_tail)
    = Ok sql →
  duck_connect db w1 = None →
  (run_sql db llm question w).2 =
    w1 ++ [Connect (List.length w1); Execute (List.length w1) sql; Close (List.length w1)].
Proof.
  intros Hs Hllm Hcon.
  assert (generate_sql db llm question w = (Ok sql, w1)) as Hgen.
  { unfold generate_sql, bind. rewrite Hs. unfold lift. by rewrite Hllm. }
  rewrite (ToolsFacts.run_sql_after_generate db llm question w sql w1 Hgen Hcon).
  cbv zeta. by destruct (duck_execute db _ sql).
Qed.

Lemma run_sql_executes_model_text_witness :
  (run_sql empty_duck {| llm_invoke := λ _, Ok "DROP TABLE sales" |} "Remove sales" []).2 =
    [Connect 0; Execute 0 "SHOW TABLES"; Close 0]
    ++ [Connect 3; Execute 3 "DROP TABLE sales"; Close 3].
Proof.
  apply (run_sql_executes_model_text empty_duck {| llm_invoke := λ _, Ok "DROP TABLE sales" |}
           "Remove sales" [] [Connect 0; Execute 0 "SHOW TABLES"; Close 0] "" "DROP TABLE sales").
  - vm_compute. reflexivity.
  - reflexivity.
  - reflexivity.
Defined.

(** X11: distinct values are sampled only for text columns of tables whose
    name starts with [DIM_]: for any other column [get_schema] runs no
    query and describes the column as "name (type)". *)
Theorem describe_column_without_values (db : Duck) (con : nat) (table_name : string)
    (col_name col_type : Cell) (rest : list Cell) (w : World) :
  String.prefix "DIM_" table_name && is_text_type col_type = false →
  describe_column db con (CText table_name) (col_name :: col_type :: rest) w =
    (Ok (cell_str col_name +:+ " (" +:+ cell_str col_type +:+ ")"), w).
Proof.
  intros H. unfold describe_column, bind, lift. simpl. rewrite H. unfold ret.
  simpl. reflexivity.
Qed.

Lemma describe_column_without_values_witness :
  describe_column sample_duck 0 (CText "DIM_MODEL") [CText "year"; CText "BIGINT"] [] =
    (Ok (cell_str (CText "year") +:+ " (" +:+ cell_str (CText "BIGINT") +:+ ")"), []).
Proof.
  apply (describe_column_without_values sample_duck 0 "DIM_MODEL"
           (CText "year") (CText "BIGINT") [] []).
  reflexivity.
Defined.

(** X29: a value returned by [run_sql] is of one of two kinds: a text that
    starts with "Error executing SQL: ", or a dictionary with exactly the
    keys "query" (a text) and "sql_result" (a list). *)
Theorem run_sql_result_kinds (db : Duck) (llm : ChatModel) (question : string)
    (w w' : World) (v : PyVal) :
  run_sql db llm question w = (Ok v, w') →
  (∃ text, v = PStr text ∧ String.prefix "Error executing SQL: " text = true) ∨
  (∃ sql rows, v = PDict [("query", PStr sql); ("sql_result", PList rows)]).
Proof.
  intros H.
  assert (is_ok (run_sql db llm question w).1 = true) as Hok by by rewrite H.
  apply run_sql_returns_iff_aux in Hok as (sql & w1 & Hgen & Hcon).
  rewrite (ToolsFacts.run_sql_after_generate db llm question w sql w1 Hgen Hcon) in H.
  cbv zeta in H. destruct (duck_execute db _ sql) as [t|e]; injection H as <- _.
  - right. by eexists _, _.
  - left. eexists. split; [done|]. apply prefix_append.
Qed.

Lemma run_sql_result_kinds_witness :
  (∃ text, PStr "Error executing SQL: Table does not exist" = PStr text ∧
           String.prefix "Error executing SQL: " text = true) ∨
  (∃ sql rows, PStr "Error executing SQL: Table does not exist" =
               PDict [("query", PStr sql); ("sql_result", PList rows)]).
Proof.
  apply (run_sql_result_kinds sample_duck bad_llm "Total sales?" []
           (run_sql sample_duck bad_llm "Total sales?" []).2
           (PStr "Error executing SQL: Table does not exist")).
  vm_compute. reflexivity.
Defined.

End SqlFacts.

(** ** Further properties of the agent *)
Module CorrelationFacts.
Import Agent Samples.
Local Open Scope res_scope.

(** A message without tool invocation and without tool result. *)
Definition quiet (msg : Message) : Prop :=
  (msg_tool_calls msg = None ∨ msg_tool_calls msg = Some []) ∧
  (msg_tool_call_id msg = None ∨ msg_tool_call_id msg = Some "").

Lemma collect_app l1 l2 d :
  collect (l1 ++ l2) d = rbind (collect l1 d) (collect l2).
Proof.
  revert d. induction l1 as [|m l1 IH]; intros d; simpl; [done|].
  unfold rbind at 1 3. destruct (merge_result m _); [apply IH|done].
Qed.

Lemma record_calls_other id tcs : ∀ d,
  (∀ tc, tc ∈ tcs → tc_id tc ≠ id) →
  dict_get id (record_calls tcs d) = dict_get id d.
Proof.
  induction tcs as [|tc tcs IH]; intros d Hno; [done|].
  rewrite AgentFacts.record_calls_cons, IH.
  - apply AgentFacts.dict_get_set_ne. intros ->. eapply Hno; [|done]. apply elem_of_cons. by left.
  - intros tc' Hin. apply Hno. apply elem_of_cons. by right.
Qed.

Lemma not_records_ids id msg :
  ¬ records id msg → ∀ tc, tc ∈ default [] (msg_tool_calls msg) → tc_id tc ≠ id.
Proof.
  intros Hno tc Hin Heq. apply Hno.
  destruct (msg_tool_calls msg) as [tcs|] eqn:Htcs; [|by apply elem_of_nil in Hin].
  by exists tcs, tc.
Qed.

Lemma dict_get_set_is_Some {V} id id' (v : V) d :
  is_Some (dict_get id' d) → is_Some (dict_get id (dict_set id' v d)) → is_Some (dict_get id d).
Proof.
  intros Hid' H. destruct (decide (id = id')) as [->|Hne]; [done|].
  by rewrite AgentFacts.dict_get_set_ne in H.
Qed.

Lemma record_calls_keys id tcs : ∀ d,
  is_Some (dict_get id (record_calls tcs d)) →
  is_Some (dict_get id d) ∨ ∃ tc, tc ∈ tcs ∧ tc_id tc = id.
Proof.
  induction tcs as [|tc tcs IH]; intros d H; [by left|].
  rewrite AgentFacts.record_calls_cons in H. apply IH in H as [H|(tc' & Hin & Heq)].
  - destruct (decide (tc_id tc = id)) as [Heq|Hne].
    + right. exists tc. split; [|done]. apply elem_of_cons. by left.
    + left. rewrite AgentFacts.dict_get_set_ne in H; [done|congruence].
  - right. exists tc'. split; [|done]. apply elem_of_cons. by right.
Qed.

Lemma collect_keys id messages : ∀ d d',
  collect messages d = Ok d' → is_Some (dict_get id d') →
  is_Some (dict_get id d) ∨ ∃ m, m ∈ messages ∧ records id m.
Proof.
  induction messages as [|msg rest IH]; intros d d'; simpl.
  - intros [= <-] H. by left.
  - unfold rbind.
    destruct (merge_result msg (record_calls (default [] (msg_tool_calls msg)) d))
      as [d1|e] eqn:Hm; [|done].
    intros Hc Hsome. destruct (IH _ _ Hc Hsome) as [H1|(m & Hin & Hrec)].
    + assert (is_Some (dict_get id (record_calls (default [] (msg_tool_calls msg)) d))) as H0.
      { unfold merge_result in Hm. destruct (msg_tool_call_id msg) as [id'|]; [|by injection Hm as <-].
        destruct (decide (id' = "")); [by injection Hm as <-|].
        destruct (dict_get id' _) as [call|] eqn:Hget; [|done]. injection Hm as <-.
        eapply dict_get_set_is_Some; [|exact H1]. by rewrite Hget. }
      apply record_calls_keys in H0 as [?|(tc & Hin & Heq)]; [by left|].
      right. exists msg. split; [apply elem_of_cons; by left|].
      destruct (msg_tool_calls msg) as [tcs|] eqn:Htcs; [|by apply elem_of_nil in Hin].
      by exists tcs, tc.
    + right. exists m. split; [apply elem_of_cons; by right|done].
Qed.

(** X12: the correlation map only ever holds invocations: every identifier
    it contains after the loop was recorded from some message's
    [tool_calls]; a tool-result message never adds an entry. *)
Theorem collect_keys_recorded (messages : list Message) (d : list (string * Call))
    (id : string) (call : Call) :
  collect messages [] = Ok d →
  dict_get id d = Some call →
  ∃ m, m ∈ messages ∧ records id m.
Proof.
  intros Hc Hget. destruct (collect_keys id messages [] d Hc) as [[? H]|H]; [|done..].
  by rewrite Hget.
Qed.

Lemma collect_keys_recorded_witness :
  ∃ m, m ∈ unanswered_turn ∧ records "call_1" m.
Proof.
  apply (collect_keys_recorded unanswered_turn
           [("call_1", {| name := "retrieve"; args := tc_args call_1; result := PList [] |})]
           "call_1" {| name := "retrieve"; args := tc_args call_1; result := PList [] |});
    reflexivity.
Defined.



Lemma collect_quiet messages d : Forall quiet messages → collect messages d = Ok d.
Proof.
  induction 1 as [|msg rest [Htc Hid] _ IH]; simpl; [done|].
  assert (record_calls (default [] (msg_tool_calls msg)) d = d) as ->
    by (destruct Htc as [-> | ->]; done).
  unfold merge_result. by destruct Hid as [-> | ->].
Qed.

(** X14: a turn without tool activity (no message invokes a tool, none
    carries a tool result) yields the content of the last message as the
    answer and no tools entry. *)
Theorem answer_without_tools (lib : Libs) (messages : list Message) (last_message : Message) :
  Forall quiet messages →
  last messages = Some last_message →
  answer_of_messages lib messages =
    Ok {| answer_text := msg_content last_message; tools := None |}.
Proof.
  intros Hq Hlast. unfold answer_of_messages. rewrite Hlast.
  by rewrite (collect_quiet messages [] Hq).
Qed.

Lemma answer_without_tools_witness :
  answer_of_messages sample_libs [human "Hello"; ai "I cannot help with that." []] =
    Ok {| answer_text := msg_content (ai "I cannot help with that." []); tools := None |}.
Proof.
  apply (answer_without_tools sample_libs [human "Hello"; ai "I cannot help with that." []]
           (ai "I cannot help with that." [])).
  - apply Forall_cons. split; [split; by left|].
    apply Forall_cons. split; [split; [by right|by left]|]. constructor.
  - reflexivity.
Defined.

Lemma collect_untouched id messages : ∀ d d',
  (∀ m, m ∈ messages → ¬ records id m ∧ msg_tool_call_id m ≠ Some id) →
  collect messages d = Ok d' → dict_get id d' = dict_get id d.
Proof.
  induction messages as [|msg rest IH]; intros d d' Hno; simpl; [by intros [= <-]|].
  unfold rbind.
  destruct (merge_result msg (record_calls (default [] (msg_tool_calls msg)) d))
    as [d1|e] eqn:Hm; [|done].
  intros Hc. rewrite (IH d1 d'); [|intros m Hin; apply Hno, elem_of_cons; by right|done].
  destruct (Hno msg) as [Hrec Hid]; [apply elem_of_cons; by left|].
  rewrite <- (record_calls_other id (default [] (msg_tool_calls msg)) d)
    by by apply not_records_ids.
  unfold merge_result in Hm. destruct (msg_tool_call_id msg) as [id'|]; [|by injection Hm as <-].
  destruct (decide (id' = "")); [by injection Hm as <-|].
  destruct (dict_get id' _); [|done]. injection Hm as <-.
  apply AgentFacts.dict_get_set_ne. congruence.
Qed.

(** X15: correlation by identifier: when a tool-result message arrives for
    a recorded invocation and no later message mentions that identifier,
    the entry keeps its name and arguments and its result is the content
    of that message. *)
Theorem collect_merges_result (pre post : list Message) (tm : Message)
    (d1 d : list (string * Call)) (id : string) (call : Call) :
  collect pre [] = Ok d1 →
  dict_get id d1 = Some call →
  msg_tool_call_id tm = Some id →
  id ≠ "" →
  ¬ records id tm →
  (∀ m, m ∈ post → ¬ records id m ∧ msg_tool_call_id m ≠ Some id) →
  collect (pre ++ tm :: post) [] = Ok d →
  dict_get id d =
    Some {| name := name call; args := args call; result := msg_content tm |}.
Proof.
  intros Hpre Hget Htm Hid Hrec Hpost Hc.
  rewrite collect_app, Hpre in Hc. simpl in Hc. unfold rbind in Hc.
  destruct (merge_result tm (record_calls (default [] (msg_tool_calls tm)) d1))
    as [d2|e] eqn:Hm; [|done].
  rewrite (collect_untouched id post d2 d Hpost Hc).
  unfold merge_result in Hm. rewrite Htm in Hm. rewrite decide_False in Hm by done.
  rewrite (record_calls_other id) in Hm by by apply not_records_ids.
  rewrite Hget in Hm. injection Hm as <-. apply AgentFacts.dict_get_set_eq.
Qed.

Lemma collect_merges_result_witness :
  dict_get "call_1"
    [("call_1", {| name := "retrieve"; args := tc_args call_1; result := PStr "{}" |})] =
    Some {| name := "retrieve"; args := tc_args call_1;
            result := msg_content (tool_message "call_1" "{}") |}.
Proof.
  apply (collect_merges_result [human "engine?"; ai "" [call_1]] [ai "Covered." []]
           (tool_message "call_1" "{}")
           [("call_1", {| name := "retrieve"; args := tc_args call_1; result := PList [] |})]
           _ "call_1"
           {| name := "retrieve"; args := tc_args call_1; result := PList [] |}).
  - reflexivity.
  - reflexivity.
  - reflexivity.
  - discriminate.
  - intros (tcs & tc & Htcs & _). discriminate.
  - intros m Hin. apply list_elem_of_singleton in Hin as ->. split; [|discriminate].
    intros (tcs & tc & Htcs & Htc & _). injection Htcs as <-. by apply elem_of_nil in Htc.
  - reflexivity.
Defined.

(** X16: [format_tool_details] handles no failure of [json.loads]: when the
    result of any recorded call is a text that does not parse, [answer]
    raises instead of returning. *)
Theorem answer_unparsable_result (lib : Libs) (messages : list Message)
    (d : list (string * Call)) (id : string) (call : Call) (text : string) (e : Exn) :
  collect messages [] = Ok d →
  dict_get id d = Some call →
  result call = PStr text →
  json_loads lib text = Raise e →
  ∃ e', answer_of_messages lib messages = Raise e'.
Proof.
  intros Hc Hget Hres Hjson. unfold answer_of_messages.
  destruct (last messages) as [lm|]; [|by eexists].
  rewrite Hc. simpl.
  destruct d as [|kv d']; [done|].
  assert (format_call lib call = Raise e) as Hf.
  { unfold format_call, py_json_loads. rewrite Hres, Hjson. done. }
  destruct (AgentFacts.rmap_raises (format_call lib) (snd <$> kv :: d') call e
              (AgentFacts.dict_get_Some_values _ _ _ Hget) Hf) as (e' & He').
  unfold format_tool_details, rbind. rewrite He'. by eexists.
Qed.

Lemma answer_unparsable_result_witness :
  ∃ e', answer_of_messages
          {| json_loads := λ _, Raise (ExternalError "JSONDecodeError" "Expecting value");
             json_dumps := λ _, "[]"; json_dumps_indent2 := λ _, "{}";
             dataframe_to_string := λ _, Ok "" |}
          [human "Total sales?";
           ai "" [{| tc_id := "call_2"; tc_name := "run_sql";
                     tc_args := PDict [("question", PStr "Total sales?")] |}];
           tool_message "call_2" "Error executing SQL: Table does not exist";
           ai "Sorry." []] = Raise e'.
Proof.
  apply (answer_unparsable_result _ _
           [("call_2", {| name := "run_sql"; args := PDict [("question", PStr "Total sales?")];
                          result := PStr "Error executing SQL: Table does not exist" |})]
           "call_2"
           {| name := "run_sql"; args := PDict [("question", PStr "Total sales?")];
              result := PStr "Error executing SQL: Table does not exist" |}
           "Error executing SQL: Table does not exist"
           (ExternalError "JSONDecodeError" "Expecting value"));
    reflexivity.
Defined.

(** X17: the two structured renderings need a JSON object: for a call of
    [retrieve] or [run_sql] whose result text parses to anything else (a
    string, a list, a number, null), the formatting raises. *)
Theorem format_call_needs_object (lib : Libs) (call : Call) (text : string) (v : PyVal) :
  name call = "retrieve" ∨ name call = "run_sql" →
  result call = PStr text →
  json_loads lib text = Ok v →
  (∀ d, v ≠ PDict d) →
  ∃ msg, format_call lib call = Raise (TypeError msg).
Proof.
  intros Hname Hres Hjson Hv. unfold format_call, py_json_loads. rewrite Hres, Hjson.
  simpl. destruct Hname as [-> | ->]; simpl;
    destruct v as [| | | | |d]; simpl; try (by eexists); by destruct (Hv d).
Qed.

Lemma format_call_needs_object_witness :
  ∃ msg, format_call
           {| json_loads := λ s, Ok (PStr s); json_dumps := λ _, "[]";
              json_dumps_indent2 := λ _, "{}"; dataframe_to_string := λ _, Ok "" |}
           {| name := "run_sql"; args := PDict [];
              result := PStr "Error executing SQL: Table does not exist" |}
         = Raise (TypeError msg).
Proof.
  apply (format_call_needs_object _ _ "Error executing SQL: Table does not exist"
           (PStr "Error executing SQL: Table does not exist")).
  - by right.
  - reflexivity.
  - reflexivity.
  - discriminate.
Defined.

Lemma append_assoc (s t u : string) : (s +:+ t) +:+ u = s +:+ t +:+ u.
Proof.
  induction s as [|a s IH]; [done|].
  change (String a ((s +:+ t) +:+ u) = String a (s +:+ t +:+ u)). by rewrite IH.
Qed.

(** X18: the keys written by [retrieve] are the keys read by the
    formatting: a call of [retrieve] whose result text parses to the
    dictionary [retrieve] returned is rendered with its context and the
    dump of its sources. *)
Theorem format_call_retrieve (lib : Libs) (tool_args : PyVal) (text : string)
    (docs : list Tools.Document) :
  json_loads lib text = Ok (Tools.retrieve_result docs) →
  format_call lib {| name := "retrieve"; args := tool_args; result := PStr text |} =
    Ok ("Tool name: retrieve" +:+ nl +:+ nl +:+ "Args:" +:+ nl
        +:+ json_dumps_indent2 lib tool_args +:+ nl +:+ nl +:+ "Result:" +:+ nl
        +:+ Tools.context_of docs +:+ nl +:+ nl +:+ "Sources:" +:+ nl
        +:+ json_dumps lib (PList (PStr <$> Tools.sources_of docs)) +:+ nl +:+ nl).
Proof.
  intros Hjson. unfold format_call, py_json_loads. simpl. rewrite Hjson. simpl.
  f_equal. rewrite !append_assoc. reflexivity.
Qed.

Lemma format_call_retrieve_witness :
  format_call {| json_loads := λ _, Ok (Tools.retrieve_result [doc_c]);
                 json_dumps := λ _, "[]"; json_dumps_indent2 := λ _, "{}";
                 dataframe_to_string := λ _, Ok "" |}
              {| name := "retrieve"; args := PDict []; result := PStr "{}" |} =
    Ok ("Tool name: retrieve" +:+ nl +:+ nl +:+ "Args:" +:+ nl
        +:+ "{}" +:+ nl +:+ nl +:+ "Result:" +:+ nl
        +:+ Tools.context_of [doc_c] +:+ nl +:+ nl +:+ "Sources:" +:+ nl
        +:+ "[]" +:+ nl +:+ nl).
Proof.
  apply (format_call_retrieve
           {| json_loads := λ _, Ok (Tools.retrieve_result [doc_c]);
              json_dumps := λ _, "[]"; json_dumps_indent2 := λ _, "{}";
              dataframe_to_string := λ _, Ok "" |} (PDict []) "{}" [doc_c]).
  reflexivity.
Defined.

(** X19: likewise for [run_sql]: a result text that parses to the
    dictionary of a successful call (keys "query" and "sql_result") is
    rendered with the statement and the table printed by pandas; when pandas
    fails on the rows, the formatting raises that failure. *)
Theorem format_call_run_sql (lib : Libs) (tool_args : PyVal) (text sql : string)
    (rows : PyVal) :
  json_loads lib text = Ok (PDict [("query", PStr sql); ("sql_result", rows)]) →
  format_call lib {| name := "run_sql"; args := tool_args; result := PStr text |} =
    match dataframe_to_string lib rows with
    | Ok output =>
        Ok ("Tool name: run_sql" +:+ nl +:+ nl +:+ "Args:" +:+ nl
            +:+ json_dumps_indent2 lib tool_args +:+ nl +:+ nl +:+ "Result:" +:+ nl
            +:+ sql +:+ nl +:+ nl +:+ "Output:" +:+ nl +:+ output +:+ nl +:+ nl)
    | Raise e => Raise e
    end.
Proof.
  intros Hjson. unfold format_call, py_json_loads. simpl. rewrite Hjson. simpl.
  destruct (dataframe_to_string lib rows); simpl; [|done].
  f_equal. rewrite !append_assoc. reflexivity.
Qed.

Lemma format_call_run_sql_witness :
  format_call {| json_loads := λ _, Ok (PDict [("query", PStr "SELECT 1"); ("sql_result", PList [])]);
                 json_dumps := λ _, "[]"; json_dumps_indent2 := λ _, "{}";
                 dataframe_to_string := λ _, Ok "Empty DataFrame" |}
              {| name := "run_sql"; args := PDict []; result := PStr "{}" |} =
    match Ok "Empty DataFrame" with
    | Ok output =>
        Ok ("Tool name: run_sql" +:+ nl +:+ nl +:+ "Args:" +:+ nl
            +:+ "{}" +:+ nl +:+ nl +:+ "Result:" +:+ nl
            +:+ "SELECT 1" +:+ nl +:+ nl +:+ "Output:" +:+ nl +:+ output +:+ nl +:+ nl)
    | Raise e => Raise e
    end.
Proof.
  apply (format_call_run_sql
           {| json_loads := λ _, Ok (PDict [("query", PStr "SELECT 1"); ("sql_result", PList [])]);
              json_dumps := λ _, "[]"; json_dumps_indent2 := λ _, "{}";
              dataframe_to_string := λ _, Ok "Empty DataFrame" |}
           (PDict []) "{}" "SELECT 1" (PList [])).
  reflexivity.
Defined.

End CorrelationFacts.

(** ** Further properties of the chat UI *)
Module TranscriptFacts.
Import App Samples.

(** The chat bubbles among the widgets, in order. *)
Definition bubbles (ws : list Widget) : list (string * PyVal) :=
  omap (λ w, match w with Markdown r b => Some (r, b) | _ => None end) ws.

Definition details (ws : list Widget) : list string :=
  omap (λ w, match w with ToolDetails t => Some t | _ => None end) ws.

Definition banners (ws : list Widget) : list string :=
  omap (λ w, match w with ErrorBanner t => Some t | _ => None end) ws.

Lemma render_history_app h1 h2 :
  render_history (h1 ++ h2) = render_history h1 ++ render_history h2.
Proof. unfold render_history. apply bind_app. Qed.

Lemma render_history_cons m h :
  render_history (m :: h) =
    Markdown (role m) (content m) ::
    match trace m with Some t => [ToolDetails t] | None => [] end ++ render_history h.
Proof. reflexivity. Qed.

(** X20: the history is displayed faithfully: one chat bubble per message,
    in order, with its role and content, one tool-details panel per message
    that has a trace, and never an error banner. *)
Theorem render_history_faithful (history : list ChatMessage) :
  bubbles (render_history history) = (λ m, (role m, content m)) <$> history ∧
  details (render_history history) = omap trace history ∧
  banners (render_history history) = [].
Proof.
  induction history as [|m h (IH1 & IH2 & IH3)]; [done|].
  rewrite render_history_cons. unfold bubbles, details, banners in *.
  destruct (trace m) as [t|] eqn:Ht; simpl; rewrite ?Ht;
    repeat split; try f_equal; first [exact IH1|exact IH2|exact IH3].
Qed.

(** X21: a turn on which the agent answers appends exactly the user message
    and the assistant message (with the tool trace when the response has
    one) and ends in a rerun. *)
Theorem run_answered (agent_answer : string → Result Agent.Response)
    (history : list ChatMessage) (text : string) (response : Agent.Response) :
  text ≠ "" →
  agent_answer text = Ok response →
  let page := run agent_answer history (Some text) in
  messages page =
    history ++ [user_message text;
                {| role := "assistant"; content := Agent.answer_text response;
                   trace := Agent.tools response |}] ∧
  ending page = Rerun ∧
  banners (widgets page) = [].
Proof.
  intros Htext Hans. unfold run. rewrite decide_False by done. rewrite Hans.
  destruct (render_history_faithful history) as (_ & _ & Hb).
  destruct (Agent.tools response) as [t|]; simpl; rewrite <- app_assoc;
    (split; [done|]); (split; [done|]);
    unfold banners in *; rewrite !omap_app, Hb; done.
Qed.

Lemma run_answered_witness :
  let page := run (λ _, Ok {| Agent.answer_text := PStr "42"; Agent.tools := Some "trace" |})
                  [] (Some "Total sales?") in
  messages page =
    [] ++ [user_message "Total sales?";
           {| role := "assistant"; content := PStr "42"; trace := Some "trace" |}] ∧
  ending page = Rerun ∧
  banners (widgets page) = [].
Proof.
  apply (run_answered (λ _, Ok {| Agent.answer_text := PStr "42"; Agent.tools := Some "trace" |})
           [] "Total sales?" {| Agent.answer_text := PStr "42"; Agent.tools := Some "trace" |}).
  - discriminate.
  - reflexivity.
Defined.

(** X22: a run of the script never drops or rewrites history: the transcript
    after the run is the transcript before it followed by at most two
    messages, with roles user and assistant; and the run ends in a rerun
    exactly when the agent answered a non-empty prompt. *)
Theorem run_extends_history (agent_answer : string → Result Agent.Response)
    (history : list ChatMessage) (prompt : option string) :
  let page := run agent_answer history prompt in
  (∃ added, messages page = history ++ added ∧ List.length added ≤ 2 ∧
            Forall (λ m, role m = "user" ∨ role m = "assistant") added) ∧
  (ending page = Rerun ↔
   ∃ text, prompt = Some text ∧ text ≠ "" ∧ is_ok (agent_answer text) = true).
Proof.
  unfold run. destruct prompt as [text|].
  - destruct (decide (text = "")) as [->|Hne].
    + split; [exists []; rewrite app_nil_r; repeat split; [simpl; lia|constructor]|].
      split; [done|]. intros (t & [= <-] & Hne & _). done.
    + destruct (agent_answer text) as [response|e] eqn:Hans.
      * split.
        -- exists [user_message text;
                   {| role := "assistant"; content := Agent.answer_text response;
                      trace := Agent.tools response |}].
           split; [|split; [simpl; lia|]].
           ++ destruct (Agent.tools response); simpl; by rewrite <- app_assoc.
           ++ apply Forall_cons. split; [by left|]. apply Forall_singleton. by right.
        -- split; [|by destruct (Agent.tools response)].
           intros _. exists text. by rewrite Hans.
      * split.
        -- exists [user_message text]. split; [done|]. split; [simpl; lia|].
           apply Forall_singleton. by left.
        -- split; [done|]. intros (t & [= <-] & _ & Hok). by rewrite Hans in Hok.
  - split; [exists []; rewrite app_nil_r; repeat split; [simpl; lia|constructor]|].
    split; [done|]. intros (t & Hp & _). done.
Qed.

(** X23: the error of a failed turn is not persisted: the next run of the
    script (no new prompt) displays the old history and the user message of
    the failed turn, and no error banner. *)
Theorem run_error_not_persisted (agent_answer : string → Result Agent.Response)
    (history : list ChatMessage) (text : string) (e : Exn) :
  text ≠ "" →
  agent_answer text = Raise e →
  let failed := run agent_answer history (Some text) in
  let next := run agent_answer (messages failed) None in
  banners (widgets failed) = ["An error occurred: " +:+ exn_str e] ∧
  widgets next = render_history history ++ [Markdown "user" (PStr text)] ∧
  banners (widgets next) = [] ∧
  messages next = history ++ [user_message text].
Proof.
  intros Htext Hans. unfold run. rewrite decide_False by done. rewrite Hans. simpl.
  destruct (render_history_faithful history) as (_ & _ & Hb).
  rewrite render_history_app. unfold banners in *. rewrite !omap_app, Hb. done.
Qed.

Lemma run_error_not_persisted_witness :
  let failed := run (Agent.answer sample_libs failing_framework) [] (Some "Total sales?") in
  let next := run (Agent.answer sample_libs failing_framework) (messages failed) None in
  banners (widgets failed) =
    ["An error occurred: " +:+ exn_str (ExternalError "APIConnectionError" "Connection error.")] ∧
  widgets next = render_history [] ++ [Markdown "user" (PStr "Total sales?")] ∧
  banners (widgets next) = [] ∧
  messages next = [] ++ [user_message "Total sales?"].
Proof.
  apply (run_error_not_persisted (Agent.answer sample_libs failing_framework) []
           "Total sales?" (ExternalError "APIConnectionError" "Connection error.")).
  - discriminate.
  - reflexivity.
Defined.

End TranscriptFacts.

(** ** Further properties of the data-setup script *)
Module SetupTraceFacts.
Import SetupData Samples.
Local Open Scope setup_scope.

(** A script that appends only actions satisfying [P]. *)
Definition appends {A} (P : Action → Prop) (m : Script A) : Prop :=
  ∀ w, ∃ evs, (m w).2 = w ++ evs ∧ Forall P evs.

Definition is_db_action (a : Action) : bool :=
  match a with
  | DbConnect | DbExecute _ | DbClose => true
  | _ => false
  end.

Definition db_actions (w : list Action) : list Action := List.filter is_db_action w.



(** A host on which no table can be created. *)
Definition read_only_host : Host :=
  {| glob := glob sample_host;
     path_join := path_join sample_host;
     basename := basename sample_host;
     splitext_root := splitext_root sample_host;
     load_pdf := load_pdf sample_host;
     split_documents := split_documents sample_host;
     from_documents := from_documents sample_host;
     db_connect := λ _, Ok tt;
     db_execute := λ _ _, Raise (ExternalError "IOException" "read-only file system");
     repr_rows := repr_rows sample_host |}.

(** The PDF files of the folders, each with the folder it stands in. *)
Definition pdf_files (host : Host) (folders : list string) : list (string * string) :=
  folders ≫= (λ folder, (λ doc, (folder, doc)) <$> glob host (path_join host folder "*.pdf")).

(** A host with one PDF in each of two folders. *)
Definition two_folder_host : Host :=
  {| glob := λ pattern,
       if decide (pattern = "docs/*") then ["docs/contracts"; "docs/user_manuals"]
       else if decide (pattern = "docs/contracts/*.pdf") then ["docs/contracts/warranty.pdf"]
       else if decide (pattern = "docs/user_manuals/*.pdf") then ["docs/user_manuals/corolla.pdf"]
       else [];
     path_join := path_join sample_host;
     basename := λ path,
       if decide (path = "docs/contracts") then "contracts"
       else if decide (path = "docs/user_manuals") then "user_manuals"
       else path;
     splitext_root := splitext_root sample_host;
     load_pdf := λ _ path,
       if decide (path = "docs/contracts/warranty.pdf") then Ok [doc_a] else Ok [doc_c];
     split_documents := split_documents sample_host;
     from_documents := from_documents sample_host;
     db_connect := db_connect sample_host;
     db_execute := db_execute sample_host;
     repr_rows := repr_rows sample_host |}.

(** The statement [load_csv] builds for a file, line 66. *)
Definition create_statement (host : Host) (csv_file : string) : string :=
  "CREATE OR REPLACE TABLE " +:+ splitext_root host (basename host csv_file)
  +:+ " AS SELECT * FROM read_csv_auto('" +:+ csv_file +:+ "')".

Lemma appends_sret {A} P (a : A) : appends P (sret a).
Proof. intros w. exists []. simpl. by rewrite app_nil_r. Qed.

Lemma appends_sbind {A B} P (m : Script A) (k : A → Script B) :
  appends P m → (∀ a, appends P (k a)) → appends P (sbind m k).
Proof.
  intros Hm Hk w. unfold sbind. destruct (Hm w) as (evs & Hw & Hevs).
  destruct (m w) as [[a|e] w1]; simpl in Hw; subst w1; [|by exists evs].
  destruct (Hk a (w ++ evs)) as (evs' & Hw' & Hevs').
  exists (evs ++ evs'). rewrite Hw', app_assoc. split; [done|]. by apply Forall_app.
Qed.

Lemma appends_perform {A} (P : Action → Prop) act (r : list Action → Result A) :
  P act → appends P (λ w, perform act (r w) w).
Proof. intros HP w. exists [act]. split; [done|]. by apply Forall_singleton. Qed.

Lemma appends_print (P : Action → Prop) text : P (Print text) → appends P (print text).
Proof. intros HP. apply (appends_perform P (Print text) (λ _, Ok tt) HP). Qed.

Lemma appends_sfor {A} P (f : A → Script unit) l :
  (∀ x, appends P (f x)) → appends P (sfor f l).
Proof.
  intros Hf. induction l as [|x rest IH]; simpl; [apply appends_sret|].
  apply appends_sbind; [apply Hf|]. intros _. apply IH.
Qed.

Lemma appends_sfold {A B} P (f : B → A → Script B) l : ∀ acc,
  (∀ acc x, appends P (f acc x)) → appends P (sfold f acc l).
Proof.
  induction l as [|x rest IH]; intros acc Hf; simpl; [apply appends_sret|].
  apply appends_sbind; [apply Hf|]. intros acc'. by apply IH.
Qed.

Lemma setup_rag_db_appends host : appends (λ a, is_db_action a = false) (setup_rag_db host).
Proof.
  unfold setup_rag_db. apply appends_sbind.
  { apply appends_sfold. intros acc folder. unfold load_folder.
    apply appends_sbind; [by apply appends_print|]. intros _.
    apply appends_sfold. intros acc' doc. unfold load_document.
    apply appends_sbind; [by apply appends_print|]. intros _.
    apply appends_sbind; [|intros; apply appends_sret].
    by apply (appends_perform _ (LoadPdf doc) (λ w, load_pdf host w doc)). }
  intros documents. apply appends_sbind.
  { intros w. exists []. rewrite app_nil_r. split; [|done].
    by destruct (split_documents host documents). }
  intros chunks. apply appends_sbind; [by apply appends_print|]. intros _.
  apply appends_sbind; [|intros; by apply appends_print].
  by apply (appends_perform _ (BuildIndex chunks) (λ w, from_documents host w chunks)).
Qed.

(** X24: [setup_rag_db] never touches DuckDB: whatever the host does and
    however the call ends, it connects to no database, executes no statement
    and closes no connection. *)
Theorem setup_rag_db_no_database (host : Host) (w : list Action) :
  db_actions (drop (List.length w) (setup_rag_db host w).2) = [].
Proof.
  destruct (setup_rag_db_appends host w) as (evs & -> & Hevs).
  rewrite drop_app_length. unfold db_actions.
  induction Hevs as [|a l Ha _ IH]; [done|]. simpl. by rewrite Ha.
Qed.

Lemma load_csv_appends host (P : Action → Prop) csv :
  (∀ text, P (Print text)) → (∀ sql, P (DbExecute sql)) → appends P (load_csv host csv).
Proof.
  intros HP1 HP2. unfold load_csv.
  apply appends_sbind; [by apply appends_print|]. intros _.
  apply appends_sbind; [|intros; apply appends_sret].
  apply (appends_perform P (DbExecute _) (λ w, db_execute host w _)). apply HP2.
Qed.

Lemma load_csvs_returned host csvs : ∀ w w',
  sfor (load_csv host) csvs w = (Returned tt, w') →
  ∃ evs, w' = w ++ evs ∧
         db_actions evs = (λ csv, DbExecute (create_statement host csv)) <$> csvs.
Proof.
  induction csvs as [|csv rest IH]; intros w w'; simpl.
  - intros [= <-]. exists []. by rewrite app_nil_r.
  - unfold sbind at 1, load_csv, sbind at 1, print, perform at 1. simpl.
    unfold sbind at 1, perform at 1.
    fold (create_statement host csv).
    destruct (db_execute host _ (create_statement host csv)); [|done].
    unfold sret. intros H. apply IH in H as (evs & -> & Hevs).
    eexists (_ :: _ :: evs). rewrite <- !app_assoc. split; [reflexivity|].
    change (DbExecute (create_statement host csv) :: db_actions evs =
            DbExecute (create_statement host csv)
              :: ((λ csv0, DbExecute (create_statement host csv0)) <$> rest)).
    by rewrite Hevs.
Qed.

(** What a run of [sql_steps] leaves in the trace, for each way it ends. *)
Lemma sql_steps_cases host w r w' :
  sql_steps host w = (r, w') →
  ∃ evs, w' = w ++ evs ∧
    ((r = Returned tt ∧
      db_actions evs =
        DbConnect :: ((λ csv, DbExecute (create_statement host csv))
                        <$> glob host (path_join host DATA_DIR "*.csv"))
                  ++ [DbExecute "SHOW TABLES"; DbClose]) ∨
     ((∃ e, r = Raised e) ∧ Forall (λ a, a ≠ DbClose) evs)).
Proof.
  unfold sql_steps, sbind at 1, print at 1, perform at 1. simpl.
  unfold sbind at 1, perform at 1.
  set (w0 := w ++ [Print "Setting up DuckDB..."]).
  destruct (db_connect host w0) as [[]|e].
  2:{ intros [= <- <-]. exists [Print "Setting up DuckDB..."; DbConnect].
      unfold w0. rewrite <- app_assoc. split; [done|]. right. split; [by eexists|].
      repeat constructor; done. }
  set (csvs := glob host (path_join host DATA_DIR "*.csv")).
  unfold sbind at 1.
  assert (∀ csv, appends (λ a, a ≠ DbClose) (load_csv host csv)) as Hcsv
    by (intros csv; apply load_csv_appends; discriminate).
  destruct (appends_sfor (λ a, a ≠ DbClose) (load_csv host) csvs Hcsv
              (w0 ++ [DbConnect])) as (evs1 & Hw1 & Hne1).
  destruct (sfor (load_csv host) csvs (w0 ++ [DbConnect])) as [[[]|e] w1] eqn:Hfor;
    simpl in Hw1.
  - apply load_csvs_returned in Hfor as (evs & -> & Hevs).
    unfold sbind at 1, perform at 1.
    destruct (db_execute host _ "SHOW TABLES") as [tables|e].
    + unfold sbind, print, perform. intros [= <- <-].
      eexists (Print _ :: DbConnect :: evs ++ [DbExecute _; Print _; DbClose; Print _]).
      unfold w0. rewrite <- !app_assoc. split; [reflexivity|]. left. split; [done|].
      unfold db_actions in *. simpl. rewrite List.filter_app, Hevs. done.
    + intros [= <- <-]. apply app_inv_head in Hw1 as <-.
      exists (Print "Setting up DuckDB..." :: DbConnect :: evs ++ [DbExecute "SHOW TABLES"]).
      unfold w0. rewrite <- !app_assoc. split; [reflexivity|]. right. split; [by eexists|].
      repeat (apply Forall_cons; split; [done|]). apply Forall_app. split; [done|].
      by apply Forall_singleton.
  - intros [= <- <-]. subst w1.
    exists (Print "Setting up DuckDB..." :: DbConnect :: evs1).
    unfold w0. rewrite <- !app_assoc. split; [reflexivity|]. right. split; [by eexists|].
    repeat (apply Forall_cons; split; [done|]). done.
Qed.

(** X25: a run of the table-loading steps of [setup_sql_db] that completes
    has opened one connection, executed one [CREATE OR REPLACE TABLE]
    statement per CSV file, in the order of [glob], then [SHOW TABLES], and
    has closed the connection. *)
Theorem sql_steps_completed (host : Host) (w w' : list Action) :
  sql_steps host w = (Returned tt, w') →
  db_actions (drop (List.length w) w') =
    DbConnect :: ((λ csv, DbExecute (create_statement host csv))
                    <$> glob host (path_join host DATA_DIR "*.csv"))
              ++ [DbExecute "SHOW TABLES"; DbClose].
Proof.
  intros H. apply sql_steps_cases in H as (evs & -> & [[_ H]|[[e He] _]]); [|done].
  by rewrite drop_app_length.
Qed.

Lemma sql_steps_completed_witness :
  db_actions (drop (List.length ([] : list Action)) (sql_steps sample_host []).2) =
    DbConnect :: ((λ csv, DbExecute (create_statement sample_host csv))
                    <$> glob sample_host (path_join sample_host DATA_DIR "*.csv"))
              ++ [DbExecute "SHOW TABLES"; DbClose].
Proof.
  apply (sql_steps_completed sample_host [] (sql_steps sample_host []).2).
  vm_compute. reflexivity.
Defined.

(** X26: [con.close()] is not in a [finally]: when connecting or a statement
    raises, the table-loading steps raise and the connection is never
    closed. *)
Theorem sql_steps_failure_never_closes (host : Host) (w w' : list Action) (e : Exn) :
  sql_steps host w = (Raised e, w') →
  DbClose ∉ drop (List.length w) w'.
Proof.
  intros H. apply sql_steps_cases in H as (evs & -> & [[H _]|[_ H]]); [done|].
  rewrite drop_app_length. intros Hin. rewrite Forall_forall in H. by apply (H _ Hin).
Qed.

Lemma sql_steps_failure_never_closes_witness :
  DbClose ∉ drop (List.length ([] : list Action)) (sql_steps read_only_host []).2.
Proof.
  apply (sql_steps_failure_never_closes read_only_host [] (sql_steps read_only_host []).2
           (ExternalError "IOException" "read-only file system")).
  vm_compute. reflexivity.
Defined.

Lemma load_documents_tagged host doc_type docs : ∀ acc documents w w',
  sfold (load_document host doc_type) acc docs w = (Returned documents, w') →
  ∃ loaded : list (list Tools.Document),
    Forall2 (λ (doc : string) (pages : list Tools.Document), ∃ w0, load_pdf host w0 doc = Ok pages) docs loaded ∧
    documents = acc ++ concat ((λ pages : list Tools.Document, tag doc_type <$> pages) <$> loaded).
Proof.
  induction docs as [|doc rest IH]; intros acc documents w w'; simpl.
  - intros [= <- <-]. exists []. split; [constructor|]. by rewrite app_nil_r.
  - unfold sbind at 1, load_document, sbind at 1, print, perform at 1. simpl.
    unfold sbind at 1, perform at 1.
    destruct (load_pdf host _ doc) as [pages|e] eqn:Hload; [|done]. unfold sret.
    intros H. apply IH in H as (loaded & Hall & ->).
    exists (pages :: loaded). split; [constructor; [by eexists|done]|].
    simpl. by rewrite app_assoc.
Qed.

Lemma zip_with_files host folder docs (loaded : list (list Tools.Document)) :
  List.length docs = List.length loaded →
  zip_with (λ (file : string * string) (pages : list Tools.Document), tag (basename host file.1) <$> pages)
           ((λ doc, (folder, doc)) <$> docs) loaded =
  (λ pages : list Tools.Document, tag (basename host folder) <$> pages) <$> loaded.
Proof.
  revert loaded. induction docs as [|doc rest IH]; intros [|pages loaded] Hlen;
    simpl in *; try done.
  f_equal. apply IH. lia.
Qed.

Lemma load_folders_tagged host folders : ∀ acc documents w w',
  sfold (load_folder host) acc folders w = (Returned documents, w') →
  ∃ loaded : list (list Tools.Document),
    Forall2 (λ (file : string * string) (pages : list Tools.Document), ∃ w0, load_pdf host w0 file.2 = Ok pages)
            (pdf_files host folders) loaded ∧
    documents =
      acc ++ concat (zip_with (λ (file : string * string) (pages : list Tools.Document), tag (basename host file.1) <$> pages)
                              (pdf_files host folders) loaded).
Proof.
  induction folders as [|folder rest IH]; intros acc documents w w'; simpl.
  - intros [= <- <-]. exists []. split; [constructor|]. by rewrite app_nil_r.
  - unfold sbind at 1, load_folder, sbind at 1, print, perform at 1. simpl.
    destruct (sfold (load_document host (basename host folder)) acc _ _)
      as [[acc1|e] w1] eqn:Hdocs; [|done].
    apply load_documents_tagged in Hdocs as (loaded1 & Hall1 & ->).
    intros H. apply IH in H as (loaded2 & Hall2 & ->).
    exists (loaded1 ++ loaded2). unfold pdf_files. simpl. fold (pdf_files host rest).
    split.
    + apply Forall2_app; [|done]. by apply Forall2_fmap_l.
    + rewrite zip_with_app
        by (rewrite length_fmap; by apply Forall2_length in Hall1).
      rewrite concat_app, zip_with_files by by apply Forall2_length in Hall1.
      by rewrite <- app_assoc.
Qed.

Lemma elem_of_concat_lists {A} (x : A) (ls : list (list A)) :
  x ∈ concat ls → ∃ l, x ∈ l ∧ l ∈ ls.
Proof.
  induction ls as [|l ls IH]; simpl; [by intros H%elem_of_nil|].
  intros [H|H]%elem_of_app.
  - exists l. split; [done|]. apply elem_of_cons. by left.
  - destruct (IH H) as (l' & Hx & Hl'). exists l'. split; [done|].
    apply elem_of_cons. by right.
Qed.

(** X27: the pages that the loading loop of [setup_rag_db] collects are, in
    the order of the folders and of the PDF files in each folder, the pages
    that the loader returned for each file, each tagged under "doc_type"
    with the name of the folder its file stands in. *)
Theorem loaded_pages_tagged (host : Host) (documents : list Tools.Document)
    (w w' : list Action) :
  sfold (load_folder host) [] (glob host (path_join host DOCS_DIR "*")) w
    = (Returned documents, w') →
  ∃ loaded : list (list Tools.Document),
    Forall2 (λ (file : string * string) (pages : list Tools.Document), ∃ w0, load_pdf host w0 file.2 = Ok pages)
            (pdf_files host (glob host (path_join host DOCS_DIR "*"))) loaded ∧
    documents =
      concat (zip_with (λ (file : string * string) (pages : list Tools.Document), tag (basename host file.1) <$> pages)
                       (pdf_files host (glob host (path_join host DOCS_DIR "*"))) loaded) ∧
    Forall (λ d, ∃ folder doc w0 pages page,
                   folder ∈ glob host (path_join host DOCS_DIR "*") ∧
                   doc ∈ glob host (path_join host folder "*.pdf") ∧
                   load_pdf host w0 doc = Ok pages ∧ page ∈ pages ∧
                   d = tag (basename host folder) page ∧
                   Tools.metadata d !! "doc_type" = Some (basename host folder)) documents.
Proof.
  intros H. apply load_folders_tagged in H as (loaded & Hall & ->).
  exists loaded. split; [done|]. split; [done|]. simpl.
  apply Forall_forall. intros d Hd.
  apply elem_of_concat_lists in Hd as (tagged & Hd & Htagged).
  apply list_elem_of_lookup in Htagged as (i & Hi).
  apply lookup_zip_with_Some in Hi as ([folder doc] & pages & -> & Hfile & Hpages).
  apply list_elem_of_fmap in Hd as (page & -> & Hpage).
  destruct (Forall2_lookup_lr _ _ _ _ _ _ Hall Hfile Hpages) as (w0 & Hload).
  apply list_elem_of_lookup_2 in Hfile. unfold pdf_files in Hfile.
  apply list_elem_of_bind in Hfile as (folder' & Hfile & Hfolder).
  apply list_elem_of_fmap in Hfile as (doc' & [= -> ->] & Hdoc).
  exists folder', doc', w0, pages, page. simpl in *.
  repeat split; try done. apply lookup_insert_eq.
Qed.

Lemma loaded_pages_tagged_witness :
  ∃ loaded : list (list Tools.Document),
    Forall2 (λ (file : string * string) (pages : list Tools.Document), ∃ w0, load_pdf two_folder_host w0 file.2 = Ok pages)
            (pdf_files two_folder_host (glob two_folder_host (path_join two_folder_host DOCS_DIR "*")))
            loaded ∧
    [tag "contracts" doc_a; tag "user_manuals" doc_c] =
      concat (zip_with (λ (file : string * string) (pages : list Tools.Document), tag (basename two_folder_host file.1) <$> pages)
                       (pdf_files two_folder_host
                          (glob two_folder_host (path_join two_folder_host DOCS_DIR "*")))
                       loaded) ∧
    Forall (λ d, ∃ folder doc w0 pages page,
                   folder ∈ glob two_folder_host (path_join two_folder_host DOCS_DIR "*") ∧
                   doc ∈ glob two_folder_host (path_join two_folder_host folder "*.pdf") ∧
                   load_pdf two_folder_host w0 doc = Ok pages ∧ page ∈ pages ∧
                   d = tag (basename two_folder_host folder) page ∧
                   Tools.metadata d !! "doc_type" = Some (basename two_folder_host folder))
           [tag "contracts" doc_a; tag "user_manuals" doc_c].
Proof.
  apply (loaded_pages_tagged two_folder_host [tag "contracts" doc_a; tag "user_manuals" doc_c] []
           [Print "Loading contracts..."; Print "Loading docs/contracts/warranty.pdf...";
            LoadPdf "docs/contracts/warranty.pdf";
            Print "Loading user_manuals..."; Print "Loading docs/user_manuals/corolla.pdf...";
            LoadPdf "docs/user_manuals/corolla.pdf"]).
  vm_compute. reflexivity.
Defined.






End SetupTraceFacts.
